(** * Supadata client: the request gateway of [supadata/client.py]

    A shallow embedding of the class [Supadata]: construction
    ([__init__]), the gateway error table ([_handle_gateway_error]), key
    normalisation ([_camel_to_snake] with its inner [convert]) and the
    dispatch pipeline ([_request]), followed by the properties of the
    specification that concern them.

    Conventions of the embedding.
    - A Python [str] is a [string]: a sequence of characters with code
      points below 256.  On that range [lower], [isspace] and the regular
      expression classes below agree with Python's.  Beyond it Python's
      [lower] is no longer character by character; what the properties of
      [convert] use of [lower] is that it is idempotent and leaves no
      letter A-Z.
    - A value decoded from JSON is a [value]; a [dict] is an association
      list in insertion order.  [json.loads] builds dicts whose keys are
      pairwise distinct ([NoDup (keys d)]).
    - An exception is a value of [exn]; code that may raise returns
      [exn + A].  Code that talks to the network runs in the monad [M],
      which threads the [World]: the remote server and the log of the
      requests sent so far. *)

From Stdlib Require Import String Ascii List ZArith NArith Bool Arith Lia.
Import ListNotations.
Local Open Scope string_scope.
Local Open Scope list_scope.

(** ** Characters and strings *)

(** [ord(c)] *)
Definition ord (c : ascii) : N := N_of_ascii c.

(** [lo <= c <= hi] on code points: a range [lo-hi] of a character class. *)
Definition in_range (lo hi c : ascii) : bool :=
  ((ord lo <=? ord c) && (ord c <=? ord hi))%N.

(** [str.lower] on one character: A-Z, and the upper-case letters of
    Latin-1 (U+00C0..U+00DE but the multiplication sign U+00D7), move 32
    code points up; every other character below 256 is kept. *)
Definition lower_char (c : ascii) : ascii :=
  if in_range "A" "Z" c
     || (((192 <=? ord c) && (ord c <=? 222))%N && negb (ord c =? 215)%N)
  then ascii_of_N (ord c + 32)
  else c.

Fixpoint lower (s : string) : string :=
  match s with
  | EmptyString => EmptyString
  | String c s' => String (lower_char c) (lower s')
  end.

(** [str.isspace] on one character below 256: TAB..CR, FS..US, space,
    NEL and the no-break space. *)
Definition isspace (c : ascii) : bool :=
  (((9 <=? ord c) && (ord c <=? 13)) || ((28 <=? ord c) && (ord c <=? 32))
   || (ord c =? 133) || (ord c =? 160))%N.

Fixpoint lstrip (s : string) : string :=
  match s with
  | EmptyString => EmptyString
  | String c s' => if isspace c then lstrip s' else s
  end.

Fixpoint rstrip (s : string) : string :=
  match s with
  | EmptyString => EmptyString
  | String c s' =>
      match rstrip s' with
      | EmptyString => if isspace c then EmptyString else String c EmptyString
      | t => String c t
      end
  end.

(** [s.strip()] *)
Definition strip (s : string) : string := rstrip (lstrip s).

(** [sub in s] on strings *)
Fixpoint contains (sub s : string) : bool :=
  prefix sub s
  || match s with
     | EmptyString => false
     | String _ s' => contains sub s'
     end.

(** The longest prefix of [s] whose characters satisfy [p], and the rest
    of [s] behind it. *)
Fixpoint run (p : ascii -> bool) (s : string) : string :=
  match s with
  | EmptyString => EmptyString
  | String c s' => if p c then String c (run p s') else EmptyString
  end.

Fixpoint after (p : ascii -> bool) (s : string) : string :=
  match s with
  | EmptyString => EmptyString
  | String c s' => if p c then after p s' else s
  end.

(** ** Regular expressions: the fragment of [re] the client uses *)

Module Re.

(** A set of characters: [.] (every character but the line feed) or a
    bracket class given by its ranges. *)
Inductive charset : Type :=
| Any
| Ranges (rs : list (ascii * ascii)).

Definition mem (cs : charset) (c : ascii) : bool :=
  match cs with
  | Any => negb (Ascii.eqb c "010")
  | Ranges rs => existsb (fun r => in_range (fst r) (snd r) c) rs
  end.

(** Patterns: one character of a set, [cs+] (greedy), concatenation and a
    capturing group.  No pattern of this fragment matches the empty
    string. *)
Inductive regex : Type :=
| Chr (cs : charset)
| Plus (cs : charset)
| Cat (r1 r2 : regex)
| Group (r : regex).

(** The text between two positions of a scan, the second a suffix of the
    first. *)
Definition consumed (s s' : string) : string :=
  substring 0 (String.length s - String.length s') s.

Section Matching.
Context {R : Type}.

(** [cs+] against [s], then the continuation [k]: one character, then as
    many more as possible, giving characters back while [k] fails. *)
Fixpoint plus_k (p : ascii -> bool) (k : string -> option R) (s : string)
  : option R :=
  match s with
  | EmptyString => None
  | String c s' =>
      if p c
      then match plus_k p k s' with
           | Some res => Some res
           | None => k s'
           end
      else None
  end.

(** Backtracking match of [r] at the start of [s]; [g] holds the groups
    closed so far, in the order they close, which is their numbering as
    long as groups do not nest. *)
Fixpoint rmatch (r : regex) (s : string) (g : list string)
  (k : string -> list string -> option R) : option R :=
  match r with
  | Chr cs =>
      match s with
      | EmptyString => None
      | String c s' => if mem cs c then k s' g else None
      end
  | Plus cs => plus_k (mem cs) (fun s' => k s' g) s
  | Cat r1 r2 => rmatch r1 s g (fun s' g' => rmatch r2 s' g' k)
  | Group r' => rmatch r' s g (fun s' g' => k s' (g' ++ [consumed s s']))
  end.

End Matching.

(** [re.match]: the groups and the text after the match. *)
Definition match_at (r : regex) (s : string) : option (list string * string) :=
  rmatch r s [] (fun s' g => Some (g, s')).

(** A replacement template such as [r'\1_\2']. *)
Inductive item : Type :=
| Lit (s : string)
| Ref (n : nat).

Fixpoint expand (tpl : list item) (g : list string) : string :=
  match tpl with
  | [] => EmptyString
  | Lit s :: tpl' => s ++ expand tpl' g
  | Ref n :: tpl' => nth (n - 1) g EmptyString ++ expand tpl' g
  end.

(** [re.sub] scans from the left: where the pattern matches, the
    replacement is emitted and the scan goes on after the match;
    elsewhere one character is copied.  [fuel] bounds the number of
    steps. *)
Fixpoint sub_fuel (fuel : nat) (r : regex) (tpl : list item) (s : string)
  : string :=
  match fuel with
  | O => s
  | S fuel' =>
      match s with
      | EmptyString => EmptyString
      | String c s' =>
          match match_at r s with
          | Some (g, rest) => expand tpl g ++ sub_fuel fuel' r tpl rest
          | None => String c (sub_fuel fuel' r tpl s')
          end
      end
  end.

(** [re.sub(r, tpl, s)]: every step consumes a character, so the length
    of [s] is fuel enough ([sub_fuel_enough]). *)
Definition sub (r : regex) (tpl : list item) (s : string) : string :=
  sub_fuel (String.length s) r tpl s.

End Re.

(** ** Key normalisation: [_camel_to_snake] *)

Definition upper_AZ : Re.charset := Re.Ranges [("A", "Z")%char].
Definition lower_az : Re.charset := Re.Ranges [("a", "z")%char].
Definition lower_az_09 : Re.charset :=
  Re.Ranges [("a", "z")%char; ("0", "9")%char].

(** ['(.)([A-Z][a-z]+)'] *)
Definition re_word : Re.regex :=
  Re.Cat (Re.Group (Re.Chr Re.Any))
         (Re.Group (Re.Cat (Re.Chr upper_AZ) (Re.Plus lower_az))).

(** ['([a-z0-9])([A-Z])'] *)
Definition re_hump : Re.regex :=
  Re.Cat (Re.Group (Re.Chr lower_az_09)) (Re.Group (Re.Chr upper_AZ)).

(** [r'\1_\2'] *)
Definition repl : list Re.item := [Re.Ref 1; Re.Lit "_"; Re.Ref 2].

(** The inner function [convert] of [_camel_to_snake]. *)
Definition convert (name : string) : string :=
  let name := Re.sub re_word repl name in
  lower (Re.sub re_hump repl name).

(** ** JSON values *)

(** What [json.loads] returns: [None], a [bool], an [int], a [float]
    (kept as its 64 bits), a [str], a [list] or a [dict] with [str]
    keys. *)
#[warnings="-register-all"] Inductive value : Type :=
| VNull
| VBool (b : bool)
| VInt (n : Z)
| VFloat (bits : N)
| VStr (s : string)
| VList (l : list value)
| VDict (d : list (string * value)).

(** [d[k] = v] on a dict: an existing key keeps its place and takes the
    new value, a new key goes last. *)
Fixpoint dict_set {V : Type} (k : string) (v : V) (d : list (string * V))
  : list (string * V) :=
  match d with
  | [] => [(k, v)]
  | (k', v') :: d' =>
      if String.eqb k k' then (k, v) :: d' else (k', v') :: dict_set k v d'
  end.

(** [d.get(k)] *)
Fixpoint dict_get {V : Type} (k : string) (d : list (string * V)) : option V :=
  match d with
  | [] => None
  | (k', v') :: d' => if String.eqb k k' then Some v' else dict_get k d'
  end.

(** One item stored into a dict under construction. *)
Definition store {V : Type} (d : list (string * V)) (kv : string * V)
  : list (string * V) :=
  dict_set (fst kv) (snd kv) d.

(** A dict display or comprehension: the items are stored one by one. *)
Definition dict_of_items {V : Type} (items : list (string * V))
  : list (string * V) :=
  fold_left store items [].

Definition keys {V : Type} (d : list (string * V)) : list string := map fst d.

(** [_camel_to_snake]: the keys of every dict converted, lists walked,
    everything else returned as it is. *)
Fixpoint _camel_to_snake (d : value) : value :=
  match d with
  | VDict items =>
      VDict (dict_of_items
               (map (fun kv => (convert (fst kv), _camel_to_snake (snd kv)))
                    items))
  | VList l => VList (map _camel_to_snake l)
  | _ => d
  end.

(** The items of a dict after normalisation. *)
Definition snake_items (items : list (string * value))
  : list (string * value) :=
  dict_of_items
    (map (fun kv => (convert (fst kv), _camel_to_snake (snd kv))) items).

(** ** Responses, errors and exceptions *)

(** What the client reads of a [requests.Response]: the status, the
    headers, the body as text, and the outcome of [response.json()]
    ([None] when the body is not valid JSON). *)
Record Response : Type := {
  status_code : Z;
  headers : list (string * string);
  text : string;
  json : option value
}.

(** Modelled from the spec: the record [Error] of [supadata/types.py],
    which is not part of the sources at hand.  The specification gives the
    structured error the fields [code], [title] and [description], all
    required, and no other.  Whether the record has further fields cannot
    be read off the sources: the statements below are made through
    [Error_new] and do not depend on the list of fields; only the
    concrete examples do. *)
Record Error : Type := {
  code : value;
  title : value;
  description : value
}.

Definition Error_fields : list string := ["code"; "title"; "description"].

(** What an [HTTPError] was built from. *)
Inductive http_arg : Type :=
| OfStatus (response : Response)
| OfValue (v : value)
| OfError (error : Error) (cause : Response).

(** The exceptions in play: [supadata.errors.SupadataError],
    [requests.exceptions.HTTPError], the decode error of
    [response.json()] (a [ValueError]), [TypeError], [KeyError], and a
    failure of the transport itself. *)
Inductive exn : Type :=
| SupadataError (code title description : string)
| HTTPError (arg : http_arg)
| JSONDecodeError
| TypeError
| KeyError (k : string)
| ConnectionError (msg : string).

(** [e.response] of an [HTTPError]: set by [raise_for_status] only. *)
Definition exn_response (a : http_arg) : option Response :=
  match a with
  | OfStatus r => Some r
  | _ => None
  end.

(** [Error] called with the items of [error_data] as keywords: a
    [TypeError] unless [error_data] is a mapping that gives every field
    of the record and nothing else. *)
Definition Error_new (error_data : value) : exn + Error :=
  match error_data with
  | VDict kw =>
      if forallb (fun k => existsb (String.eqb k) Error_fields) (keys kw)
      then match dict_get "code" kw, dict_get "title" kw,
                 dict_get "description" kw with
           | Some c, Some t, Some d =>
               inr {| code := c; title := t; description := d |}
           | _, _, _ => inl TypeError
           end
      else inl TypeError
  | _ => inl TypeError
  end.

(** [k in v] for a string [k] *)
Definition py_in (k : string) (v : value) : exn + bool :=
  match v with
  | VDict d => inr (existsb (String.eqb k) (keys d))
  | VList l =>
      inr (existsb (fun x => match x with
                             | VStr s => String.eqb k s
                             | _ => false
                             end) l)
  | VStr s => inr (contains k s)
  | _ => inl TypeError
  end.

(** [v[k]] for a string [k] *)
Definition py_getitem (v : value) (k : string) : exn + value :=
  match v with
  | VDict d =>
      match dict_get k d with
      | Some x => inr x
      | None => inl (KeyError k)
      end
  | _ => inl TypeError
  end.

(** [headers.get(name, default)] on the case-insensitive headers of a
    response. *)
Fixpoint headers_get (h : list (string * string)) (name default : string)
  : string :=
  match h with
  | [] => default
  | (k, v) :: h' =>
      if String.eqb (lower k) (lower name) then v
      else headers_get h' name default
  end.

(** [response.raise_for_status()] *)
Definition raise_for_status (response : Response) : exn + unit :=
  if ((400 <=? status_code response) && (status_code response <? 600))%Z
  then inl (HTTPError (OfStatus response))
  else inr tt.

(** [response.json()] *)
Definition response_json (response : Response) : exn + value :=
  match json response with
  | Some v => inr v
  | None => inl JSONDecodeError
  end.

(** ** The network *)

Record Request : Type := {
  req_method : string;
  req_url : string;
  req_headers : list (string * string);
  req_kwargs : list (string * value)
}.

(** The remote side answers a request, given the requests before it, with
    a response or a transport failure; [sent] logs the requests made. *)
Record World : Type := {
  server : list Request -> Request -> exn + Response;
  sent : list Request
}.

(** Computations that may raise and may use the network. *)
Definition M (A : Type) : Type := World -> (exn + A) * World.

Definition ret {A : Type} (a : A) : M A := fun w => (inr a, w).

Definition raise {A : Type} (e : exn) : M A := fun w => (inl e, w).

Definition bind {A B : Type} (c : M A) (k : A -> M B) : M B :=
  fun w =>
    match c w with
    | (inr a, w') => k a w'
    | (inl e, w') => (inl e, w')
    end.

Definition lift {A : Type} (r : exn + A) : M A := fun w => (r, w).

(** [try: body except ...: handler]: [handler e] is [None] when no clause
    catches [e]. *)
Definition try_except {A : Type} (body : M A) (handler : exn -> option (M A))
  : M A :=
  fun w =>
    match body w with
    | (inl e, w') =>
        match handler e with
        | Some h => h w'
        | None => (inl e, w')
        end
    | r => r
    end.

Declare Scope monad_scope.
Delimit Scope monad_scope with monad.
Notation "x <- c ;; k" := (bind c (fun x => k))
  (at level 61, c at next level, right associativity) : monad_scope.
Notation "c ;; k" := (bind c (fun _ => k))
  (at level 61, right associativity) : monad_scope.
Local Open Scope monad_scope.

(** ** The client *)

Record Supadata : Type := {
  base_url : string;
  session : list (string * string)
}.

Definition DEFAULT_BASE_URL : string := "https://api.supadata.ai/v1".

(** [x or y] on strings *)
Definition str_or (x y : string) : string :=
  if String.eqb x "" then y else x.

Definition _handle_gateway_error (status_code : Z) (error_text : string)
  : exn + unit :=
  if (status_code =? 403)%Z then
    inl (SupadataError
           "invalid-request"
           "Invalid or missing API key"
           (str_or error_text "Please ensure you have provided a valid API key"))
  else if (status_code =? 404)%Z then
    inl (SupadataError
           "invalid-request"
           "Endpoint does not exist"
           (str_or error_text
              "The API endpoint you are trying to access does not exist"))
  else if (status_code =? 429)%Z then
    inl (SupadataError
           "limit-exceeded"
           "Limit exceeded"
           (str_or error_text
              "You have exceeded the allowed request rate or quota limits"))
  else inr tt.

(** [Supadata(api_key, base_url)].  The namespaces [youtube] and [web]
    only keep a reference to [_request] and are left out. *)
Definition __init__ (api_key : string) (base_url : string) : M Supadata :=
  (if String.eqb api_key "" || (String.length (strip api_key) <? 8)%nat
   then lift (_handle_gateway_error 403 "Invalid API key format")
   else ret tt) ;;
  ret {| base_url := base_url;
         session := [("x-api-key", api_key); ("Accept", "application/json")] |}.

(** [self.session.request(method, url, **kwargs)] *)
Definition session_request (self : Supadata) (method url : string)
  (kwargs : list (string * value)) : M Response :=
  fun w =>
    let request := {| req_method := method; req_url := url;
                      req_headers := session self; req_kwargs := kwargs |} in
    (server w (sent w) request,
     {| server := server w; sent := sent w ++ [request] |}).

(** The answer of the remote side in [w] to the request that
    [_request self method path kwargs] sends. *)
Definition answer (w : World) (self : Supadata) (method path : string)
  (kwargs : list (string * value)) : exn + Response :=
  server w (sent w)
    {| req_method := method; req_url := base_url self ++ path;
       req_headers := session self; req_kwargs := kwargs |}.

Definition _request (self : Supadata) (method path : string)
  (kwargs : list (string * value)) : M value :=
  let url := (base_url self ++ path)%string in
  response <- session_request self method url kwargs ;;
  (if existsb (Z.eqb (status_code response)) [403; 404; 429]%Z then
     let content_type := headers_get (headers response) "content-type" "" in
     if negb (contains "application/json" content_type)
     then lift (_handle_gateway_error (status_code response) (text response))
     else ret tt
   else ret tt) ;;
  if (status_code response =? 206)%Z && contains "/transcript" path then
    body <- lift (response_json response) ;;
    let error_data := _camel_to_snake body in
    found <- lift (py_in "error" error_data) ;;
    (if found : bool then
       error <- lift (py_getitem error_data "error") ;;
       raise (HTTPError (OfValue error))
     else ret tt) ;;
    raise (HTTPError (OfValue (VStr "No transcript available")))
  else
    try_except
      (lift (raise_for_status response) ;;
       body <- lift (response_json response) ;;
       ret (_camel_to_snake body))
      (fun e =>
         match e with
         | HTTPError a =>
             Some
               ((match exn_response a with
                 | Some e_response =>
                     try_except
                       (body <- lift (response_json e_response) ;;
                        let error_data := _camel_to_snake body in
                        error <- lift (Error_new error_data) ;;
                        raise (HTTPError (OfError error e_response)))
                       (fun e' =>
                          match e' with
                          | JSONDecodeError | TypeError => Some (ret tt)
                          | _ => None
                          end)
                 | None => ret tt
                 end) ;;
                raise e)
         | _ => None
         end).

(** ** The reference rule of the specification for one key *)

Module Rule.

Definition is_upper (c : ascii) : bool := in_range "A" "Z" c.
Definition is_lower (c : ascii) : bool := in_range "a" "z" c.
Definition is_digit (c : ascii) : bool := in_range "0" "9" c.
Definition is_newline (c : ascii) : bool := Ascii.eqb c "010".

(** [s] begins with a capitalised multi-letter word: an upper-case letter
    followed by lower-case letters. *)
Definition starts_word (s : string) : bool :=
  match s with
  | String u (String l _) => is_upper u && is_lower l
  | _ => false
  end.

Definition starts_upper (s : string) : bool :=
  match s with
  | String u _ => is_upper u
  | EmptyString => false
  end.

(** First pass, as the specification words it: a separator between any
    character and a capitalised multi-letter word that follows it. *)
Fixpoint split_words (s : string) : string :=
  match s with
  | EmptyString => EmptyString
  | String c s' =>
      if starts_word s'
      then String c (String "_" (split_words s'))
      else String c (split_words s')
  end.

(** Second pass: a separator between a lower-case letter or digit and an
    upper-case letter right after it. *)
Fixpoint split_humps (s : string) : string :=
  match s with
  | EmptyString => EmptyString
  | String c s' =>
      if (is_lower c || is_digit c) && starts_upper s'
      then String c (String "_" (split_humps s'))
      else String c (split_humps s')
  end.

(** The two passes, then everything in lower case. *)
Definition snake (s : string) : string :=
  lower (split_humps (split_words s)).

(** The first pass with the line feed set apart: no separator is put
    after a line feed. *)
Fixpoint split_words_nl (s : string) : string :=
  match s with
  | EmptyString => EmptyString
  | String c s' =>
      if negb (is_newline c) && starts_word s'
      then String c (String "_" (split_words_nl s'))
      else String c (split_words_nl s')
  end.

Definition snake_nl (s : string) : string :=
  lower (split_humps (split_words_nl s)).

End Rule.

(** ** Concrete inputs *)

(** A remote side that answers every request with [response]; nothing
    has been sent yet. *)
Definition serving (response : Response) : World :=
  {| server := fun _ _ => inr response; sent := [] |}.

Definition client : Supadata :=
  {| base_url := DEFAULT_BASE_URL;
     session := [("x-api-key", "sd_0123456789");
                 ("Accept", "application/json")] |}.

(** [s] between double quotes, for the text of a JSON body. *)
Definition quoted (s : string) : string :=
  String "034" (s ++ String "034" EmptyString).

(** The text of a JSON object with the given members. *)
Definition object_text (members : list string) : string :=
  "{" ++ String.concat ", " members ++ "}".

Definition member (k v : string) : string := quoted k ++ ": " ++ v.

(** A 403 of the gateway itself: plain text. *)
Definition forbidden_plain : Response :=
  {| status_code := 403;
     headers := [("Content-Type", "text/plain")];
     text := "forbidden";
     json := None |}.

Definition error_text (code title description : string) : string :=
  object_text [member "code" (quoted code); member "title" (quoted title);
               member "description" (quoted description)].

Definition error_value (code title description : string) : value :=
  VDict [("code", VStr code); ("title", VStr title);
         ("description", VStr description)].

(** A 429 of the API with the error under the key [error]. *)
Definition limit_wrapped : Response :=
  {| status_code := 429;
     headers := [("Content-Type", "application/json")];
     text := object_text [member "error" (error_text "limit-exceeded" "x" "y")];
     json := Some (VDict [("error", error_value "limit-exceeded" "x" "y")]) |}.

(** A 206 on a transcript path with an error in the body. *)
Definition partial_no_captions : Response :=
  {| status_code := 206;
     headers := [("Content-Type", "application/json")];
     text := object_text [member "error" (error_text "no-captions" "t" "d")];
     json := Some (VDict [("error", error_value "no-captions" "t" "d")]) |}.

(** A 206 whose body is the JSON number 5. *)
Definition partial_number : Response :=
  {| status_code := 206;
     headers := [("Content-Type", "application/json")];
     text := "5";
     json := Some (VInt 5) |}.

(** A 502 of a proxy: an HTML page. *)
Definition bad_gateway_html : Response :=
  {| status_code := 502;
     headers := [("Content-Type", "text/html")];
     text := "<html>Bad Gateway</html>";
     json := None |}.

Definition video_value : value :=
  VDict [("videoTitle", VStr "Foo");
         ("items", VList [VDict [("viewCount", VInt 5)]])].

Definition ok_video : Response :=
  {| status_code := 200;
     headers := [("Content-Type", "application/json")];
     text := object_text
               [member "videoTitle" (quoted "Foo");
                member "items" ("[" ++ object_text [member "viewCount" "5"]
                                ++ "]")];
     json := Some video_value |}.

(** A 204: no body at all. *)
Definition no_content : Response :=
  {| status_code := 204;
     headers := [];
     text := "";
     json := None |}.

(** A 200 whose body is not JSON. *)
Definition ok_html : Response :=
  {| status_code := 200;
     headers := [("Content-Type", "text/html")];
     text := "<html>ok</html>";
     json := None |}.

(** ** Notions used to state further properties *)

(** [separated s t]: [t] is [s] with underscores put in, each between a
    character of [s] and a letter A-Z that follows it.  Nothing of [s]
    is dropped, changed or moved, and nothing goes in front of [s] or
    behind it. *)
Inductive separated : string -> string -> Prop :=
| separated_nil : separated EmptyString EmptyString
| separated_keep (c : ascii) (s t : string) :
    separated s t -> separated (String c s) (String c t)
| separated_insert (c u : ascii) (s t : string) :
    Rule.is_upper u = true ->
    separated (String u s) t ->
    separated (String c (String u s)) (String c (String "_" t)).

(** The keys of the dicts of a value, at every depth. *)
Fixpoint all_keys (v : value) : list string :=
  match v with
  | VDict items => flat_map (fun kv => fst kv :: all_keys (snd kv)) items
  | VList l => flat_map all_keys l
  | _ => []
  end.

(** A computation that sends nothing: it leaves the world as it is. *)
Definition silent {A : Type} (c : M A) : Prop := forall w, snd (c w) = w.

(** The request that [_request self method path kwargs] builds. *)
Definition request_of (self : Supadata) (method path : string)
  (kwargs : list (string * value)) : Request :=
  {| req_method := method; req_url := base_url self ++ path;
     req_headers := session self; req_kwargs := kwargs |}.

(** The content type that a response declares, as [_request] reads it. *)
Abbreviation content_type response :=
  (headers_get (headers response) "content-type" "").

(** A remote side out of reach: every request fails with [e]. *)
Definition unreachable (e : exn) : World :=
  {| server := fun _ _ => inl e; sent := [] |}.

(** A 500 of the API with the error at the top level of the body, served
    without a JSON content type. *)
Definition internal_flat : Response :=
  {| status_code := 500;
     headers := [("Content-Type", "text/plain")];
     text := error_text "internal-error" "x" "y";
     json := Some (error_value "internal-error" "x" "y") |}.

(** A 300 with a JSON body. *)
Definition choices_video : Response :=
  {| status_code := 300;
     headers := [("Content-Type", "application/json")];
     text := text ok_video;
     json := Some video_value |}.

(** A 206 whose body has the error under the key [Error], itself an
    object with a camel-case key. *)
Definition partial_capital_error : Response :=
  {| status_code := 206;
     headers := [("Content-Type", "application/json")];
     text := object_text
               [member "Error"
                  (object_text [member "errorCode" (quoted "no-captions")])];
     json := Some (VDict [("Error",
                           VDict [("errorCode", VStr "no-captions")])]) |}.

(** ** Proof automation *)

(** A property of one character, settled on each of the 256. *)
Ltac by_cases_on_char c :=
  destruct c as [[] [] [] [] [] [] [] []]; try reflexivity; try discriminate.

(** Runs [_request] up to the answer of the remote side, recorded in [H]. *)
Ltac dispatch H :=
  unfold _request, session_request, bind, try_except, lift, ret, raise;
  unfold answer in H; cbv zeta; rewrite H; cbn [fst snd].

(** * Properties *)

(** ** Characters *)

Lemma upper_not_lower (c : ascii) :
  Rule.is_upper c = true -> Rule.is_lower c = false.
Proof. by_cases_on_char c. Qed.

Lemma upper_not_digit (c : ascii) :
  Rule.is_upper c = true -> Rule.is_digit c = false.
Proof. by_cases_on_char c. Qed.

Lemma lower_not_upper (c : ascii) :
  Rule.is_lower c = true -> Rule.is_upper c = false.
Proof. by_cases_on_char c. Qed.

Lemma lower_not_newline (c : ascii) :
  Rule.is_lower c = true -> Rule.is_newline c = false.
Proof. by_cases_on_char c. Qed.

Lemma upper_not_newline (c : ascii) :
  Rule.is_upper c = true -> Rule.is_newline c = false.
Proof. by_cases_on_char c. Qed.

Lemma lower_char_not_upper (c : ascii) : Rule.is_upper (lower_char c) = false.
Proof. by_cases_on_char c. Qed.

Lemma lower_char_idem (c : ascii) : lower_char (lower_char c) = lower_char c.
Proof. by_cases_on_char c. Qed.

Lemma mem_any (c : ascii) : Re.mem Re.Any c = negb (Rule.is_newline c).
Proof. reflexivity. Qed.

Lemma mem_upper (c : ascii) : Re.mem upper_AZ c = Rule.is_upper c.
Proof. cbn. apply orb_false_r. Qed.

Lemma mem_lower (c : ascii) : Re.mem lower_az c = Rule.is_lower c.
Proof. cbn. apply orb_false_r. Qed.

Lemma mem_lower_digit (c : ascii) :
  Re.mem lower_az_09 c = Rule.is_lower c || Rule.is_digit c.
Proof. cbn. now rewrite orb_false_r. Qed.

(** ** Strings *)

Lemma run_after (p : ascii -> bool) (s : string) :
  (run p s ++ after p s)%string = s.
Proof.
  induction s as [|c s IH]; cbn; [reflexivity|].
  destruct (p c); cbn; [now rewrite IH | reflexivity].
Qed.

Lemma after_length (p : ascii -> bool) (s : string) :
  String.length (after p s) <= String.length s.
Proof.
  induction s as [|c s IH]; cbn; [lia|]. destruct (p c); cbn; lia.
Qed.

Lemma length_append (a b : string) :
  String.length (a ++ b) = String.length a + String.length b.
Proof. induction a as [|c a IH]; cbn; [reflexivity | now rewrite IH]. Qed.

Lemma substring_prefix (a b : string) :
  substring 0 (String.length a) (a ++ b) = a.
Proof. induction a as [|c a IH]; cbn; [now destruct b | now rewrite IH]. Qed.

Lemma consumed_append (a b : string) : Re.consumed (a ++ b) b = a.
Proof.
  unfold Re.consumed. rewrite length_append.
  replace (_ + _ - _) with (String.length a) by lia.
  apply substring_prefix.
Qed.

(** ** The matcher *)

(** A match consumes at least one character. *)
Lemma plus_k_progress {R : Type} (p : ascii -> bool) (k : string -> option R)
  (s : string) (res : R) :
  Re.plus_k p k s = Some res ->
  exists s', String.length s' < String.length s /\ k s' = Some res.
Proof.
  induction s as [|c s IH]; cbn; [discriminate|].
  destruct (p c); [|discriminate].
  destruct (Re.plus_k p k s) as [res'|] eqn:E.
  - intros [= <-]. destruct (IH eq_refl) as (s' & Hlen & Hk).
    exists s'. split; [lia | exact Hk].
  - intros Hk. exists s. split; [lia | exact Hk].
Qed.

Lemma rmatch_progress {R : Type} (r : Re.regex) :
  forall (s : string) (g : list string)
         (k : string -> list string -> option R) (res : R),
    Re.rmatch r s g k = Some res ->
    exists s' g', String.length s' < String.length s /\ k s' g' = Some res.
Proof.
  induction r as [cs | cs | r1 IH1 r2 IH2 | r IH]; intros s g k res; cbn.
  - destruct s as [|c s]; [discriminate|].
    destruct (Re.mem cs c); [|discriminate].
    intros Hk. exists s, g. cbn. split; [lia | exact Hk].
  - intros H. apply plus_k_progress in H. destruct H as (s' & Hlen & Hk).
    now exists s', g.
  - intros H. apply IH1 in H. destruct H as (s1 & g1 & Hlen1 & H).
    apply IH2 in H. destruct H as (s2 & g2 & Hlen2 & H).
    exists s2, g2. split; [lia | exact H].
  - intros H. apply IH in H. destruct H as (s' & g' & Hlen & H).
    now exists s', (g' ++ [Re.consumed s s']).
Qed.

Lemma match_at_progress (r : Re.regex) (s rest : string) (g : list string) :
  Re.match_at r s = Some (g, rest) -> String.length rest < String.length s.
Proof.
  intros H. apply rmatch_progress in H.
  destruct H as (s' & g' & Hlen & [= _ <-]). exact Hlen.
Qed.

(** With fuel for every character, [sub_fuel] does not depend on the
    fuel. *)
Lemma sub_fuel_enough (r : Re.regex) (tpl : list Re.item) :
  forall (n m : nat) (s : string),
    String.length s <= n -> String.length s <= m ->
    Re.sub_fuel n r tpl s = Re.sub_fuel m r tpl s.
Proof.
  induction n as [|n IH]; intros m s Hn Hm.
  - destruct s; [|cbn in Hn; lia]. now destruct m.
  - destruct m as [|m]; [destruct s; [reflexivity | cbn in Hm; lia]|].
    destruct s as [|c s]; [reflexivity|]. cbn [Re.sub_fuel].
    cbn in Hn, Hm.
    destruct (Re.match_at r (String c s)) as [[g rest]|] eqn:E.
    + apply match_at_progress in E. cbn in E.
      f_equal. apply IH; lia.
    + f_equal. apply IH; lia.
Qed.

(** The equation of [re.sub]. *)
Lemma sub_step (r : Re.regex) (tpl : list Re.item) (c : ascii) (s : string) :
  Re.sub r tpl (String c s)
  = match Re.match_at r (String c s) with
    | Some (g, rest) => (Re.expand tpl g ++ Re.sub r tpl rest)%string
    | None => String c (Re.sub r tpl s)
    end.
Proof.
  unfold Re.sub. cbn [String.length Re.sub_fuel].
  destruct (Re.match_at r (String c s)) as [[g rest]|] eqn:E.
  - apply match_at_progress in E. cbn in E.
    f_equal. apply sub_fuel_enough; lia.
  - reflexivity.
Qed.

Lemma sub_empty (r : Re.regex) (tpl : list Re.item) :
  Re.sub r tpl "" = "".
Proof. reflexivity. Qed.

(** With a continuation that always succeeds, [cs+] takes the whole run. *)
Lemma plus_k_greedy {R : Type} (p : ascii -> bool) (f : string -> R)
  (c : ascii) (s : string) :
  Re.plus_k p (fun s' => Some (f s')) (String c s)
  = if p c then Some (f (after p s)) else None.
Proof.
  revert c. induction s as [|a s IH]; intros c.
  - cbn. now destruct (p c).
  - cbn [Re.plus_k] in *. destruct (p c); [|reflexivity].
    rewrite IH. cbn [after]. now destruct (p a).
Qed.

(** ** The two patterns of [convert] *)

Lemma match_word (c : ascii) (s : string) :
  Re.match_at re_word (String c s)
  = match s with
    | String u (String l s3) =>
        if negb (Rule.is_newline c) && Rule.is_upper u && Rule.is_lower l
        then Some ([String c ""; String u (String l (run Rule.is_lower s3))],
                   after Rule.is_lower s3)
        else None
    | _ => None
    end.
Proof.
  unfold Re.match_at, re_word. cbn [Re.rmatch].
  rewrite mem_any. destruct (Rule.is_newline c); cbn [negb andb].
  - now destruct s as [|u [|l s3]].
  - destruct s as [|u s2]; [reflexivity|]. rewrite mem_upper.
    destruct (Rule.is_upper u); cbn [andb]; [|now destruct s2].
    destruct s2 as [|l s3]; [reflexivity|].
    rewrite (plus_k_greedy (Re.mem lower_az)
               (fun s' => (([] ++ [Re.consumed (String c (String u (String l s3)))
                                     (String u (String l s3))])
                           ++ [Re.consumed (String u (String l s3)) s'], s'))).
    rewrite mem_lower. destruct (Rule.is_lower l); [|reflexivity].
    replace (after (Re.mem lower_az) s3) with (after Rule.is_lower s3).
    2:{ clear. induction s3 as [|a s IH]; cbn [after]; [reflexivity|].
        rewrite mem_lower, IH. reflexivity. }
    do 2 f_equal. cbn [app]. f_equal.
    + apply (consumed_append (String c "") (String u (String l s3))).
    + f_equal.
      rewrite <- (run_after Rule.is_lower s3) at 1.
      apply (consumed_append
               (String u (String l (run Rule.is_lower s3)))
               (after Rule.is_lower s3)).
Qed.

Lemma match_hump (c : ascii) (s : string) :
  Re.match_at re_hump (String c s)
  = match s with
    | String u s2 =>
        if (Rule.is_lower c || Rule.is_digit c) && Rule.is_upper u
        then Some ([String c ""; String u ""], s2)
        else None
    | EmptyString => None
    end.
Proof.
  unfold Re.match_at, re_hump. cbn [Re.rmatch].
  rewrite mem_lower_digit.
  destruct (Rule.is_lower c || Rule.is_digit c); cbn [andb];
    [|now destruct s].
  destruct s as [|u s2]; [reflexivity|]. rewrite mem_upper.
  destruct (Rule.is_upper u); [|reflexivity].
  do 2 f_equal. cbn [app]. f_equal.
  - apply (consumed_append (String c "") (String u s2)).
  - f_equal. apply (consumed_append (String u "") s2).
Qed.

Lemma append_empty_r (a : string) : (a ++ "")%string = a.
Proof. induction a as [|c a IH]; cbn; [reflexivity | now rewrite IH]. Qed.

Lemma expand_repl (g1 g2 : string) :
  Re.expand repl [g1; g2] = (g1 ++ String "_" g2)%string.
Proof. cbn. now rewrite append_empty_r. Qed.

(** [re.sub] with the first pattern, as a recursion on the key. *)
Lemma sub_word_step (c : ascii) (s : string) :
  Re.sub re_word repl (String c s)
  = match s with
    | String u (String l s3) =>
        if negb (Rule.is_newline c) && Rule.is_upper u && Rule.is_lower l
        then String c (String "_" (String u (String l
               (run Rule.is_lower s3
                ++ Re.sub re_word repl (after Rule.is_lower s3)))))
        else String c (Re.sub re_word repl s)
    | _ => String c (Re.sub re_word repl s)
    end.
Proof.
  rewrite sub_step, match_word.
  destruct s as [|u [|l s3]]; try reflexivity.
  destruct (_ && _); [|reflexivity].
  rewrite expand_repl. reflexivity.
Qed.

Lemma sub_hump_step (c : ascii) (s : string) :
  Re.sub re_hump repl (String c s)
  = match s with
    | String u s2 =>
        if (Rule.is_lower c || Rule.is_digit c) && Rule.is_upper u
        then String c (String "_" (String u (Re.sub re_hump repl s2)))
        else String c (Re.sub re_hump repl s)
    | EmptyString => String c (Re.sub re_hump repl s)
    end.
Proof.
  rewrite sub_step, match_hump.
  destruct s as [|u s2]; [reflexivity|].
  destruct (_ && _); [|reflexivity].
  rewrite expand_repl. reflexivity.
Qed.

(** The second pattern is the second pass of the rule. *)
Lemma sub_hump_split_humps (s : string) :
  Re.sub re_hump repl s = Rule.split_humps s.
Proof.
  remember (String.length s) as n eqn:Hn. revert s Hn.
  induction n as [n IH] using lt_wf_ind. intros s Hn.
  destruct s as [|c s]; [reflexivity|].
  rewrite sub_hump_step. cbn [Rule.split_humps].
  destruct s as [|u s2].
  - cbn [Rule.starts_upper]. rewrite andb_false_r. reflexivity.
  - cbn [Rule.starts_upper].
    destruct ((Rule.is_lower c || Rule.is_digit c) && Rule.is_upper u) eqn:E.
    + apply andb_true_iff in E. destruct E as [_ Hu].
      cbn [Rule.split_humps].
      rewrite (upper_not_lower u Hu), (upper_not_digit u Hu). cbn [orb andb].
      do 3 f_equal.
      apply (IH (String.length s2)); [subst n; cbn; lia | reflexivity].
    + f_equal.
      apply (IH (String.length (String u s2))); [subst n; cbn; lia | reflexivity].
Qed.

Lemma starts_upper_sub_word (s : string) :
  Rule.starts_upper (Re.sub re_word repl s) = Rule.starts_upper s.
Proof.
  destruct s as [|c s]; [reflexivity|]. rewrite sub_word_step.
  destruct s as [|u [|l s3]]; try reflexivity.
  destruct (_ && _); reflexivity.
Qed.

Lemma starts_upper_split_words_nl (s : string) :
  Rule.starts_upper (Rule.split_words_nl s) = Rule.starts_upper s.
Proof.
  destruct s as [|c s]; [reflexivity|]. cbn [Rule.split_words_nl].
  destruct (_ && _); reflexivity.
Qed.

Lemma starts_word_upper (s : string) :
  Rule.starts_word s = true -> Rule.starts_upper s = true.
Proof.
  destruct s as [|u [|l s]]; cbn; try discriminate.
  now intros [H _]%andb_true_iff.
Qed.

Lemma starts_word_not_upper (a : ascii) (s : string) :
  Rule.is_upper a = false -> Rule.starts_word (String a s) = false.
Proof. intros H. cbn. rewrite H. now destruct s. Qed.

Lemma split_words_nl_cons (c : ascii) (s : string) :
  Rule.split_words_nl (String c s)
  = if negb (Rule.is_newline c) && Rule.starts_word s
    then String c (String "_" (Rule.split_words_nl s))
    else String c (Rule.split_words_nl s).
Proof. reflexivity. Qed.

Lemma split_humps_cons (c : ascii) (s : string) :
  Rule.split_humps (String c s)
  = if (Rule.is_lower c || Rule.is_digit c) && Rule.starts_upper s
    then String c (String "_" (Rule.split_humps s))
    else String c (Rule.split_humps s).
Proof. reflexivity. Qed.

(** The first pass of the rule along a run of lower-case letters. *)
Lemma split_words_nl_run (l : ascii) (s : string) :
  Rule.is_lower l = true ->
  Rule.split_words_nl (String l s)
  = String l
      (run Rule.is_lower s
       ++ (if Rule.starts_word (after Rule.is_lower s)
           then String "_" (Rule.split_words_nl (after Rule.is_lower s))
           else Rule.split_words_nl (after Rule.is_lower s)))%string.
Proof.
  revert l. induction s as [|a s IH]; intros l Hl.
  - cbn [Rule.split_words_nl Rule.starts_word]. rewrite andb_false_r.
    reflexivity.
  - cbn [run after]. destruct (Rule.is_lower a) eqn:Ha.
    + cbn [Rule.split_words_nl].
      rewrite (starts_word_not_upper a s (lower_not_upper a Ha)), andb_false_r.
      cbn [append]. f_equal. apply (IH a Ha).
    + cbn [Rule.split_words_nl append].
      rewrite (lower_not_newline l Hl). cbn [negb andb].
      destruct (Rule.starts_word (String a s)); reflexivity.
Qed.

(** The second pass along a run of lower-case letters. *)
Lemma split_humps_run (l : ascii) (s x : string) :
  Rule.is_lower l = true ->
  Rule.split_humps (String l (run Rule.is_lower s ++ x))
  = String l
      (run Rule.is_lower s
       ++ (if Rule.starts_upper x
           then String "_" (Rule.split_humps x)
           else Rule.split_humps x))%string.
Proof.
  revert l. induction s as [|a s IH]; intros l Hl.
  - cbn [run append Rule.split_humps]. rewrite Hl. cbn [orb andb].
    destruct (Rule.starts_upper x); reflexivity.
  - cbn [run]. destruct (Rule.is_lower a) eqn:Ha.
    + cbn [append Rule.split_humps Rule.starts_upper].
      rewrite (lower_not_upper a Ha), andb_false_r.
      f_equal. apply (IH a Ha).
    + cbn [append Rule.split_humps]. rewrite Hl. cbn [orb andb].
      destruct (Rule.starts_upper x); reflexivity.
Qed.

(** After the second pass, the scan of the first pattern and the first
    pass of the rule agree: a separator that the scan leaves out, behind
    a match, is put in by the second pass. *)
Lemma split_humps_sub_word (s : string) :
  Rule.split_humps (Re.sub re_word repl s)
  = Rule.split_humps (Rule.split_words_nl s).
Proof.
  remember (String.length s) as n eqn:Hn. revert s Hn.
  induction n as [n IH] using lt_wf_ind. intros s Hn.
  destruct s as [|c s]; [reflexivity|].
  assert (Hstep : forall t, String.length t <= String.length s ->
            Rule.split_humps (String c (Re.sub re_word repl t))
            = Rule.split_humps (String c (Rule.split_words_nl t))).
  { intros t Ht. cbn [Rule.split_humps].
    rewrite starts_upper_sub_word, starts_upper_split_words_nl.
    assert (Hlen : String.length t < n) by (subst n; cbn; lia).
    rewrite (IH _ Hlen t eq_refl). reflexivity. }
  rewrite sub_word_step. cbn [Rule.split_words_nl].
  destruct s as [|u [|l s3]].
  - cbn [Rule.starts_word]. rewrite andb_false_r. reflexivity.
  - cbn [Rule.starts_word]. rewrite andb_false_r. apply Hstep. lia.
  - cbn [Rule.starts_word]. rewrite <- andb_assoc.
    destruct (negb (Rule.is_newline c) && (Rule.is_upper u && Rule.is_lower l))
      eqn:E; [|apply Hstep; lia].
    apply andb_true_iff in E. destruct E as [_ [Hu Hl]%andb_true_iff].
    rewrite (split_words_nl_cons u).
    rewrite (starts_word_not_upper l s3 (lower_not_upper l Hl)), andb_false_r.
    rewrite (split_words_nl_run l s3 Hl).
    rewrite !(split_humps_cons c), !(split_humps_cons "_"),
      !(split_humps_cons u).
    cbn [Rule.starts_upper].
    change (Rule.is_upper "_") with false.
    change (Rule.is_lower "_" || Rule.is_digit "_") with false.
    rewrite (lower_not_upper l Hl), (upper_not_lower u Hu),
      (upper_not_digit u Hu), !andb_false_r.
    cbn [orb andb].
    do 3 f_equal.
    rewrite !(split_humps_run l s3 _ Hl). do 2 f_equal.
    rewrite starts_upper_sub_word.
    assert (Hlen : String.length (after Rule.is_lower s3) < n).
    { subst n. cbn. pose proof (after_length Rule.is_lower s3). lia. }
    rewrite (IH _ Hlen _ eq_refl).
    destruct (Rule.starts_word (after Rule.is_lower s3)) eqn:W.
    + rewrite (starts_word_upper _ W). reflexivity.
    + rewrite starts_upper_split_words_nl. reflexivity.
Qed.

(** ** Keys *)

Example convert_videoId : convert "videoId" = "video_id".
Proof. reflexivity. Qed.

Example convert_acronym :
  convert "getHTTPResponseCode" = "get_http_response_code".
Proof. reflexivity. Qed.

Example convert_digits : convert "item2Count" = "item2_count".
Proof. reflexivity. Qed.

(** The scan of the two patterns computes the two-pass rule. *)
Lemma convert_snake_nl (name : string) : convert name = Rule.snake_nl name.
Proof.
  unfold convert, Rule.snake_nl.
  rewrite sub_hump_split_humps, split_humps_sub_word. reflexivity.
Qed.



(** Without a line feed in the key the rule holds as the specification
    words it. *)
Lemma split_words_no_newline (s : string) :
  run (fun c => negb (Rule.is_newline c)) s = s ->
  Rule.split_words_nl s = Rule.split_words s.
Proof.
  induction s as [|c s IH]; [reflexivity|]. cbn [run].
  destruct (Rule.is_newline c) eqn:E; cbn [negb]; [discriminate|].
  intros [= H]. cbn [Rule.split_words_nl Rule.split_words].
  rewrite E, (IH H). reflexivity.
Qed.

Lemma convert_snake_no_newline (name : string) :
  run (fun c => negb (Rule.is_newline c)) name = name ->
  convert name = Rule.snake name.
Proof.
  intros H. rewrite convert_snake_nl. unfold Rule.snake_nl, Rule.snake.
  now rewrite split_words_no_newline.
Qed.

Lemma lower_idem (s : string) : lower (lower s) = lower s.
Proof.
  induction s as [|c s IH]; cbn; [reflexivity|].
  now rewrite lower_char_idem, IH.
Qed.

Lemma split_words_nl_lower (s : string) :
  Rule.split_words_nl (lower s) = lower s.
Proof.
  induction s as [|c s IH]; [reflexivity|].
  cbn [lower]. rewrite split_words_nl_cons, IH.
  destruct s as [|a s]; cbn [lower]; [now rewrite andb_false_r|].
  rewrite (starts_word_not_upper _ _ (lower_char_not_upper a)).
  now rewrite andb_false_r.
Qed.

Lemma split_humps_lower (s : string) :
  Rule.split_humps (lower s) = lower s.
Proof.
  induction s as [|c s IH]; [reflexivity|].
  cbn [lower]. rewrite split_humps_cons, IH.
  destruct s as [|a s]; cbn [lower Rule.starts_upper];
    [|rewrite lower_char_not_upper]; now rewrite andb_false_r.
Qed.

(** A converted key is a fixed point of [convert]. *)
Lemma convert_idem (name : string) : convert (convert name) = convert name.
Proof.
  rewrite (convert_snake_nl (convert name)).
  rewrite (convert_snake_nl name). unfold Rule.snake_nl.
  rewrite split_words_nl_lower, split_humps_lower. apply lower_idem.
Qed.

(** ** Dicts *)

Lemma dict_set_keys {V : Type} (k : string) (v : V) (d : list (string * V))
  (k' : string) :
  In k' (keys (dict_set k v d)) <-> k' = k \/ In k' (keys d).
Proof.
  induction d as [|[k0 v0] d IH]; cbn.
  - intuition congruence.
  - destruct (String.eqb_spec k k0) as [->|Hne]; cbn.
    + intuition congruence.
    + rewrite IH. intuition congruence.
Qed.

Lemma dict_set_NoDup {V : Type} (k : string) (v : V) (d : list (string * V)) :
  NoDup (keys d) -> NoDup (keys (dict_set k v d)).
Proof.
  induction d as [|[k0 v0] d IH]; cbn; intros Hd.
  - constructor; [intros [] | constructor].
  - inversion Hd as [|? ? Hnotin Hd']; subst.
    destruct (String.eqb_spec k k0) as [->|Hne]; cbn.
    + now constructor.
    + constructor; [|now apply IH].
      fold (keys (dict_set k v d)). rewrite dict_set_keys.
      intros [E | Hin]; [congruence | contradiction].
Qed.

Lemma dict_set_In {V : Type} (k : string) (v : V) (d : list (string * V))
  (kv : string * V) :
  In kv (dict_set k v d) -> kv = (k, v) \/ In kv d.
Proof.
  induction d as [|[k0 v0] d IH]; cbn.
  - intuition congruence.
  - destruct (String.eqb k k0); cbn; intuition congruence.
Qed.

Lemma dict_set_fresh {V : Type} (k : string) (v : V) (d : list (string * V)) :
  ~ In k (keys d) -> dict_set k v d = d ++ [(k, v)].
Proof.
  induction d as [|[k0 v0] d IH]; cbn; intros Hk; [reflexivity|].
  destruct (String.eqb_spec k k0) as [->|Hne]; [tauto|].
  rewrite IH; [reflexivity | tauto].
Qed.

Lemma dict_set_length {V : Type} (k : string) (v : V) (d : list (string * V)) :
  length (dict_set k v d) <= S (length d).
Proof.
  induction d as [|[k0 v0] d IH]; cbn; [lia|].
  destruct (String.eqb k k0); cbn; lia.
Qed.

Section Store.
Context {V : Type}.
Implicit Types (items acc : list (string * V)) (kv : string * V).

Lemma store_all_NoDup items acc :
  NoDup (keys acc) -> NoDup (keys (fold_left store items acc)).
Proof.
  revert acc. induction items as [|kv items IH]; intros acc Hacc; cbn.
  - exact Hacc.
  - apply IH. now apply dict_set_NoDup.
Qed.

Lemma store_all_In items acc kv :
  In kv (fold_left store items acc) -> In kv acc \/ In kv items.
Proof.
  revert acc. induction items as [|kv0 items IH]; intros acc; cbn.
  - tauto.
  - intros H. apply IH in H. destruct H as [H | H]; [|tauto].
    apply dict_set_In in H. destruct H as [-> | H]; [|tauto].
    right. left. now destruct kv0.
Qed.

Lemma store_all_fresh items acc :
  NoDup (keys (acc ++ items)) -> fold_left store items acc = acc ++ items.
Proof.
  revert acc. induction items as [|[k v] items IH]; intros acc Hnd; cbn.
  - now rewrite app_nil_r.
  - unfold store at 2. cbn [fst snd].
    assert (Hk : ~ In k (keys acc)).
    { unfold keys in *. rewrite map_app in Hnd. cbn in Hnd.
      apply NoDup_remove_2 in Hnd. rewrite in_app_iff in Hnd. tauto. }
    rewrite (dict_set_fresh k v acc Hk).
    rewrite IH; rewrite <- app_assoc; [reflexivity | exact Hnd].
Qed.

Lemma store_all_length items acc :
  length (fold_left store items acc) <= length acc + length items.
Proof.
  revert acc. induction items as [|kv items IH]; intros acc; cbn; [lia|].
  specialize (IH (store acc kv)).
  assert (H : length (store acc kv) <= S (length acc))
    by apply dict_set_length.
  lia.
Qed.

End Store.

Lemma dict_of_items_NoDup {V : Type} (items : list (string * V)) :
  NoDup (keys (dict_of_items items)).
Proof. apply store_all_NoDup. constructor. Qed.

Lemma dict_of_items_In {V : Type} (items : list (string * V))
  (kv : string * V) :
  In kv (dict_of_items items) -> In kv items.
Proof. intros H. apply store_all_In in H. now destruct H. Qed.

Lemma dict_of_items_distinct {V : Type} (items : list (string * V)) :
  NoDup (keys items) -> dict_of_items items = items.
Proof. intros H. apply (store_all_fresh items []). exact H. Qed.

Lemma dict_of_items_length {V : Type} (items : list (string * V)) :
  length (dict_of_items items) <= length items.
Proof. apply (store_all_length items []). Qed.

(** ** Normalisation of values *)

(** Induction on a value, through its lists and dicts. *)
Lemma value_induction (P : value -> Prop) :
  P VNull ->
  (forall b, P (VBool b)) ->
  (forall n, P (VInt n)) ->
  (forall bits, P (VFloat bits)) ->
  (forall s, P (VStr s)) ->
  (forall l, Forall P l -> P (VList l)) ->
  (forall d, Forall (fun kv => P (snd kv)) d -> P (VDict d)) ->
  forall v, P v.
Proof.
  intros Hnull Hbool Hint Hfloat Hstr Hlist Hdict.
  fix rec 1. intros [| b | n | bits | s | l | d].
  - exact Hnull.
  - apply Hbool.
  - apply Hint.
  - apply Hfloat.
  - apply Hstr.
  - apply Hlist. induction l as [|x l IH]; constructor; [apply rec | exact IH].
  - apply Hdict.
    induction d as [|kv d IH]; constructor; [apply rec | exact IH].
Qed.

Lemma keys_snake (d : list (string * value)) :
  keys (map (fun kv => (convert (fst kv), _camel_to_snake (snd kv))) d)
  = map convert (keys d).
Proof. unfold keys. rewrite !map_map. reflexivity. Qed.

(** C2.  Key normalisation is idempotent: on every value built from
    dicts, lists and scalars, normalising twice gives what normalising
    once gives. *)
Theorem camel_to_snake_idempotent (x : value) :
  _camel_to_snake (_camel_to_snake x) = _camel_to_snake x.
Proof.
  induction x as [| b | n | bits | s | l IH | d IH] using value_induction;
    try reflexivity.
  - cbn. f_equal. rewrite map_map.
    induction IH as [|x l Hx _ IHl]; cbn; [reflexivity | now rewrite Hx, IHl].
  - change (_camel_to_snake (VDict d)) with (VDict (snake_items d)).
    change (_camel_to_snake (VDict (snake_items d)))
      with (VDict (snake_items (snake_items d))).
    f_equal. unfold snake_items at 1.
    set (f := fun kv : string * value =>
                (convert (fst kv), _camel_to_snake (snd kv))).
    assert (Hfix : map f (snake_items d) = snake_items d).
    { rewrite <- (map_id (snake_items d)) at 2. apply map_ext_in.
      intros kv Hin. apply dict_of_items_In in Hin.
      apply in_map_iff in Hin. destruct Hin as (kv0 & <- & Hin0).
      rewrite Forall_forall in IH. unfold f. cbn [fst snd].
      now rewrite convert_idem, (IH kv0 Hin0). }
    rewrite Hfix. apply dict_of_items_distinct. apply dict_of_items_NoDup.
Qed.

(** The example of the specification: [{"videoId": 1}] becomes
    [{"video_id": 1}], which normalisation leaves as it is. *)
Example camel_to_snake_videoId :
  _camel_to_snake (VDict [("videoId", VInt 1)]) = VDict [("video_id", VInt 1)]
  /\ _camel_to_snake (VDict [("video_id", VInt 1)])
     = VDict [("video_id", VInt 1)].
Proof. split; reflexivity. Qed.

(** C4, as amended.  A dict whose keys have pairwise distinct snake-case
    forms keeps its number of entries under normalisation. *)
Theorem snake_items_length (d : list (string * value)) :
  NoDup (map convert (keys d)) ->
  length (snake_items d) = length d.
Proof.
  intros Hnd. unfold snake_items.
  rewrite dict_of_items_distinct by (now rewrite keys_snake).
  apply length_map.
Qed.

Lemma snake_items_length_witness :
  length (snake_items [("videoId", VInt 1); ("viewCount", VInt 2)]) = 2.
Proof.
  apply (snake_items_length [("videoId", VInt 1); ("viewCount", VInt 2)]).
  cbn. constructor; [|constructor; [intros [] | constructor]].
  intros [H | []]. discriminate H.
Defined.

(** Entries are merged, never added. *)
Lemma snake_items_length_le (d : list (string * value)) :
  length (snake_items d) <= length d.
Proof.
  unfold snake_items.
  etransitivity; [apply dict_of_items_length | now rewrite length_map].
Qed.

(** C4, as stated, fails: two distinct keys with the same snake-case form
    are stored under one key, and the later value replaces the earlier. *)
Lemma snake_items_length_counterexample :
  let d := [("videoId", VInt 1); ("video_id", VInt 2)] in
  NoDup (keys d)
  /\ _camel_to_snake (VDict d) = VDict [("video_id", VInt 2)]
  /\ length (snake_items d) <> length d.
Proof.
  cbn zeta. split; [|split].
  - constructor; [|constructor; [intros [] | constructor]].
    intros [H | []]. discriminate.
  - reflexivity.
  - cbn. discriminate.
Qed.

(** ** Construction *)

Lemma strip_empty : strip "" = "".
Proof. reflexivity. Qed.

(** C5.  A key that is empty, or shorter than 8 characters once stripped,
    makes the construction fail with the structured error of code
    [invalid-request] and title "Invalid or missing API key", and nothing
    is sent (the world is unchanged); a key of at least 8 characters once
    stripped, so one of exactly 8, gives a client, again without a
    request. *)
Theorem init_validates_api_key (api_key base : string) (w : World) :
  (api_key = "" \/ String.length (strip api_key) < 8 ->
   __init__ api_key base w
   = (inl (SupadataError "invalid-request" "Invalid or missing API key"
             "Invalid API key format"), w))
  /\ (8 <= String.length (strip api_key) ->
      __init__ api_key base w
      = (inr {| base_url := base;
                session := [("x-api-key", api_key);
                            ("Accept", "application/json")] |}, w)).
Proof.
  unfold __init__, bind. split.
  - intros Hkey.
    replace (String.eqb api_key "" || (String.length (strip api_key) <? 8)%nat)
      with true; [reflexivity|].
    symmetry. apply orb_true_iff. destruct Hkey as [-> | Hlen].
    + now left.
    + right. now apply Nat.ltb_lt.
  - intros Hlen.
    replace (String.eqb api_key "" || (String.length (strip api_key) <? 8)%nat)
      with false; [reflexivity|].
    symmetry. apply orb_false_iff. split.
    + apply String.eqb_neq. intros ->. rewrite strip_empty in Hlen.
      cbn in Hlen. lia.
    + now apply Nat.ltb_ge.
Qed.

(** The empty key and a key of 7 characters are refused; a key of 8
    characters between blanks is taken, blanks included. *)
Lemma init_validates_api_key_witness :
  __init__ "" DEFAULT_BASE_URL (serving ok_video)
  = (inl (SupadataError "invalid-request" "Invalid or missing API key"
            "Invalid API key format"), serving ok_video)
  /\ __init__ " 1234567 " DEFAULT_BASE_URL (serving ok_video)
     = (inl (SupadataError "invalid-request" "Invalid or missing API key"
               "Invalid API key format"), serving ok_video)
  /\ __init__ " 12345678 " DEFAULT_BASE_URL (serving ok_video)
     = (inr {| base_url := DEFAULT_BASE_URL;
               session := [("x-api-key", " 12345678 ");
                           ("Accept", "application/json")] |},
        serving ok_video).
Proof.
  split; [|split].
  - apply (proj1 (init_validates_api_key "" DEFAULT_BASE_URL
                    (serving ok_video))).
    left. reflexivity.
  - apply (proj1 (init_validates_api_key " 1234567 " DEFAULT_BASE_URL
                    (serving ok_video))).
    right. cbn. lia.
  - apply (proj2 (init_validates_api_key " 12345678 " DEFAULT_BASE_URL
                    (serving ok_video))).
    cbn. lia.
Defined.

(** ** The dispatch pipeline *)

Lemma gateway_status_iff (s : Z) :
  existsb (Z.eqb s) [403; 404; 429]%Z = true <-> In s [403; 404; 429]%Z.
Proof.
  cbn. rewrite !orb_true_iff, !Z.eqb_eq. intuition congruence.
Qed.

Lemma gateway_status_false (s : Z) :
  ~ In s [403; 404; 429]%Z -> existsb (Z.eqb s) [403; 404; 429]%Z = false.
Proof.
  intros H. destruct (existsb _ _) eqn:E; [|reflexivity].
  apply gateway_status_iff in E. contradiction.
Qed.

Lemma dict_get_keys {V : Type} (k : string) (d : list (string * V)) :
  existsb (String.eqb k) (keys d) = true <-> dict_get k d <> None.
Proof.
  induction d as [|[k' v'] d IH]; cbn.
  - split; [discriminate | congruence].
  - destruct (String.eqb k k'); cbn; [|exact IH].
    split; [discriminate | reflexivity].
Qed.

Section Dispatch.

Variables (self : Supadata) (method path : string).
Variables (kwargs : list (string * value)) (w : World) (response : Response).

(** The remote side answers the request of the call with [response]. *)
Hypothesis Hanswer : answer w self method path kwargs = inr response.

(** C6.  A response with status 403, 404 or 429 whose content type does
    not include [application/json] makes the call fail at once with the
    structured error fixed by the status alone; its description is the
    text of the body, or the fallback of that status when the text is
    empty. *)
Theorem gateway_error_by_status :
  contains "application/json"
    (headers_get (headers response) "content-type" "") = false ->
  let described fallback :=
    if String.eqb (text response) "" then fallback else text response in
  (status_code response = 403%Z ->
   fst (_request self method path kwargs w)
   = inl (SupadataError "invalid-request" "Invalid or missing API key"
            (described "Please ensure you have provided a valid API key")))
  /\ (status_code response = 404%Z ->
      fst (_request self method path kwargs w)
      = inl (SupadataError "invalid-request" "Endpoint does not exist"
               (described
                  "The API endpoint you are trying to access does not exist")))
  /\ (status_code response = 429%Z ->
      fst (_request self method path kwargs w)
      = inl (SupadataError "limit-exceeded" "Limit exceeded"
               (described
                  "You have exceeded the allowed request rate or quota limits"))).
Proof.
  intros Hct described.
  repeat split; intros Hs; dispatch Hanswer; rewrite Hct, Hs; reflexivity.
Qed.

(** C1, as amended.  A response with status 403, 404 or 429 whose content
    type includes [application/json] is not short-circuited: the call
    fails the way generic handling decides, never with the fixed-table
    error.  It fails with the structured error built from the body when
    the normalised body constructs an [Error], and with the transport
    error of [raise_for_status] otherwise: when the body is not JSON or
    the construction raises. *)
Theorem json_gateway_status_falls_through :
  In (status_code response) [403; 404; 429]%Z ->
  contains "application/json"
    (headers_get (headers response) "content-type" "") = true ->
  fst (_request self method path kwargs w)
  = inl (HTTPError
           match json response with
           | Some body =>
               match Error_new (_camel_to_snake body) with
               | inr error => OfError error response
               | inl _ => OfStatus response
               end
           | None => OfStatus response
           end).
Proof.
  intros Hs Hct. dispatch Hanswer. rewrite Hct.
  assert (H206 : (status_code response =? 206)%Z = false).
  { apply Z.eqb_neq. cbn in Hs. lia. }
  assert (Hraise : raise_for_status response
                   = inl (HTTPError (OfStatus response))).
  { unfold raise_for_status.
    replace ((400 <=? _) && _)%Z with true; [reflexivity|].
    symmetry. apply andb_true_iff. cbn in Hs. lia. }
  apply gateway_status_iff in Hs. rewrite Hs, H206, Hraise. cbn.
  unfold response_json.
  destruct (json response) as [body|]; cbn; [|reflexivity].
  unfold Error_new.
  destruct (_camel_to_snake body); try reflexivity.
  destruct (forallb _ _); [|reflexivity].
  destruct (dict_get "code" d), (dict_get "title" d),
    (dict_get "description" d); reflexivity.
Qed.

(** C7, as amended.  On a path that contains [/transcript], a response
    with status 206 whose body is a JSON object makes the call fail: with
    the value under [error] of the normalised body when there is one, and
    with "No transcript available" otherwise. *)
Theorem transcript_partial_content (d : list (string * value)) :
  status_code response = 206%Z ->
  contains "/transcript" path = true ->
  json response = Some (VDict d) ->
  fst (_request self method path kwargs w)
  = inl (HTTPError
           (OfValue
              match dict_get "error" (snake_items d) with
              | Some error => error
              | None => VStr "No transcript available"
              end)).
Proof.
  intros Hs Hpath Hjson. dispatch Hanswer.
  unfold response_json. rewrite Hs, Hpath, Hjson.
  change (_camel_to_snake (VDict d)) with (VDict (snake_items d)).
  cbn -[String.eqb snake_items dict_get].
  destruct (existsb _ (keys (snake_items d))) eqn:E.
  - apply dict_get_keys in E.
    destruct (dict_get "error" (snake_items d)); [reflexivity | congruence].
  - destruct (dict_get "error" (snake_items d)) eqn:G; [|reflexivity].
    assert (existsb (String.eqb "error") (keys (snake_items d)) = true)
      by (apply dict_get_keys; congruence).
    congruence.
Qed.

(** C8.  On a 4xx or 5xx response that the gateway short-circuit does not
    take, when the body is not JSON, or is not a JSON object, or does not
    give the fields of [Error], the transport error raised by
    [raise_for_status] is what the call fails with. *)
Theorem transport_error_reraised :
  (400 <= status_code response < 600)%Z ->
  (In (status_code response) [403; 404; 429]%Z ->
   contains "application/json"
     (headers_get (headers response) "content-type" "") = true) ->
  (json response = None
   \/ (exists body, json response = Some body /\ forall d, body <> VDict d)
   \/ (exists body, json response = Some body
                    /\ Error_new (_camel_to_snake body) = inl TypeError)) ->
  fst (_request self method path kwargs w)
  = inl (HTTPError (OfStatus response)).
Proof.
  intros Hs Hgw Hbody. dispatch Hanswer.
  assert (H206 : (status_code response =? 206)%Z = false).
  { apply Z.eqb_neq. lia. }
  assert (Hraise : raise_for_status response
                   = inl (HTTPError (OfStatus response))).
  { unfold raise_for_status.
    replace ((400 <=? _) && _)%Z with true; [reflexivity|].
    symmetry. apply andb_true_iff. lia. }
  assert (Hfail : forall body, json response = Some body ->
                   Error_new (_camel_to_snake body) = inl TypeError).
  { intros body Hj.
    destruct Hbody as [H | [(b & H & Hd) | (b & H & He)]]; rewrite Hj in H.
    - discriminate.
    - injection H as <-. destruct body; try reflexivity. now elim (Hd d).
    - injection H as <-. exact He. }
  destruct (existsb _ _) eqn:E;
    [apply gateway_status_iff in E; rewrite (Hgw E)|];
    rewrite H206, Hraise; cbn; unfold response_json;
    (destruct (json response) as [body|] eqn:Hj;
     [rewrite (Hfail body eq_refl)|]); reflexivity.
Qed.

(** C9, as amended.  A 2xx response other than a 206 on a transcript path
    whose body is valid JSON succeeds: the call returns the JSON body
    with its keys normalised.  A 206 on a path without [/transcript] is
    such a response. *)
Theorem success_returns_normalized (body : value) :
  (200 <= status_code response < 300)%Z ->
  (status_code response = 206%Z -> contains "/transcript" path = false) ->
  json response = Some body ->
  fst (_request self method path kwargs w) = inr (_camel_to_snake body).
Proof.
  intros Hs H206 Hjson. dispatch Hanswer.
  rewrite gateway_status_false by (cbn; lia).
  assert (Hok : raise_for_status response = inr tt).
  { unfold raise_for_status.
    replace (400 <=? status_code response)%Z with false; [reflexivity|].
    symmetry. apply Z.leb_gt. lia. }
  assert (Hnot : (status_code response =? 206)%Z
                 && contains "/transcript" path = false).
  { destruct (Z.eqb_spec (status_code response) 206) as [E|E];
      [rewrite (H206 E)|]; reflexivity. }
  rewrite Hnot, Hok. unfold response_json. rewrite Hjson. reflexivity.
Qed.

(** C10.  Parsing the body is unguarded where the status is a success:
    a 2xx response whose body is not valid JSON makes the call raise the
    decode error of [response.json()], on the success path and on the
    transcript path (status 206, whatever the request path) alike. *)
Theorem invalid_json_raises_decode_error :
  (200 <= status_code response < 300)%Z ->
  json response = None ->
  fst (_request self method path kwargs w) = inl JSONDecodeError.
Proof.
  intros Hs Hjson. dispatch Hanswer.
  rewrite gateway_status_false by (cbn; lia).
  assert (Hok : raise_for_status response = inr tt).
  { unfold raise_for_status.
    replace (400 <=? status_code response)%Z with false; [reflexivity|].
    symmetry. apply Z.leb_gt. lia. }
  unfold response_json. rewrite Hok, Hjson.
  destruct (_ && _); reflexivity.
Qed.

End Dispatch.

(** ** Witnesses and counterexamples of the dispatch properties *)

(** The example of the specification for C6: a 403 with
    [content-type: text/plain] and body "forbidden". *)
Lemma gateway_error_by_status_witness :
  fst (_request client "GET" "/youtube/video" [] (serving forbidden_plain))
  = inl (SupadataError "invalid-request" "Invalid or missing API key"
           "forbidden").
Proof.
  exact (proj1 (gateway_error_by_status
                  client "GET" "/youtube/video" [] (serving forbidden_plain)
                  forbidden_plain eq_refl eq_refl)
               eq_refl).
Defined.

(** C1 on the 429 of the claim, whose JSON body has the one key [error]:
    the call fails with the transport error, not with the fixed-table
    message. *)
Lemma json_gateway_status_falls_through_witness :
  fst (_request client "GET" "/youtube/video" [] (serving limit_wrapped))
  = inl (HTTPError (OfStatus limit_wrapped)).
Proof.
  exact (json_gateway_status_falls_through
           client "GET" "/youtube/video" [] (serving limit_wrapped)
           limit_wrapped
           eq_refl (or_intror (or_intror (or_introl eq_refl))) eq_refl).
Defined.

(** C1, as stated, fails on its own example: with the body
    [{"error": {"code": "limit-exceeded", "title": "x", "description": "y"}}]
    the only keyword given to [Error] is [error], the construction raises
    [TypeError], and the transport error of [raise_for_status] is raised
    again.  No structured error comes out (and no fixed-table message
    either). *)
Lemma json_429_wrapped_error_counterexample :
  fst (_request client "GET" "/youtube/video" [] (serving limit_wrapped))
  = inl (HTTPError (OfStatus limit_wrapped))
  /\ forall error cause,
       fst (_request client "GET" "/youtube/video" [] (serving limit_wrapped))
       <> inl (HTTPError (OfError error cause)).
Proof.
  split; [reflexivity|]. intros error cause.
  change (fst (_request client "GET" "/youtube/video" []
                 (serving limit_wrapped)))
    with (@inl exn value (HTTPError (OfStatus limit_wrapped))).
  discriminate.
Qed.

(** The example of the specification for the transcript rule: the error
    object of the body is what the call fails with. *)
Lemma transcript_partial_content_witness :
  fst (_request client "GET" "/youtube/transcript" []
         (serving partial_no_captions))
  = inl (HTTPError (OfValue (error_value "no-captions" "t" "d"))).
Proof.
  exact (transcript_partial_content
           client "GET" "/youtube/transcript" []
           (serving partial_no_captions) partial_no_captions eq_refl
           [("error", error_value "no-captions" "t" "d")]
           eq_refl eq_refl eq_refl).
Defined.

(** C7, as stated, fails when the body is valid JSON but not an object:
    on the number 5 the test ['error' in error_data] raises [TypeError],
    which is neither an error value of the body nor the generic "No
    transcript available". *)
Lemma transcript_number_body_counterexample :
  fst (_request client "GET" "/youtube/transcript" [] (serving partial_number))
  = inl TypeError
  /\ fst (_request client "GET" "/youtube/transcript" []
            (serving partial_number))
     <> inl (HTTPError (OfValue (VStr "No transcript available"))).
Proof. split; [reflexivity | discriminate]. Qed.

Lemma transport_error_reraised_witness :
  fst (_request client "GET" "/youtube/video" [] (serving bad_gateway_html))
  = inl (HTTPError (OfStatus bad_gateway_html)).
Proof.
  refine (transport_error_reraised
            client "GET" "/youtube/video" [] (serving bad_gateway_html)
            bad_gateway_html eq_refl _ _ (or_introl eq_refl)).
  - cbn. lia.
  - cbn. intros [H | [H | [H | []]]]; discriminate H.
Defined.

(** The example of the specification for C9. *)
Lemma success_returns_normalized_witness :
  fst (_request client "GET" "/youtube/video" [] (serving ok_video))
  = inr (VDict [("video_title", VStr "Foo");
                ("items", VList [VDict [("view_count", VInt 5)]])]).
Proof.
  refine (success_returns_normalized
            client "GET" "/youtube/video" [] (serving ok_video) ok_video
            eq_refl video_value _ _ eq_refl).
  - cbn. lia.
  - cbn. discriminate.
Defined.

(** C9, as stated, fails on a 2xx response without a JSON body: on a 204
    with an empty body [response.json()] raises, and the call does not
    succeed. *)
Lemma success_empty_body_counterexample :
  fst (_request client "DELETE" "/youtube/video" [] (serving no_content))
  = inl JSONDecodeError
  /\ forall v : value,
       fst (_request client "DELETE" "/youtube/video" [] (serving no_content))
       <> inr v.
Proof.
  split; [reflexivity|]. intros v.
  change (fst (_request client "DELETE" "/youtube/video" []
                 (serving no_content)))
    with (@inl exn value JSONDecodeError).
  discriminate.
Qed.

Lemma invalid_json_raises_decode_error_witness :
  fst (_request client "GET" "/youtube/video" [] (serving ok_html))
  = inl JSONDecodeError.
Proof.
  refine (invalid_json_raises_decode_error
            client "GET" "/youtube/video" [] (serving ok_html) ok_html
            eq_refl _ eq_refl).
  cbn. lia.
Defined.

(** A 206 on a transcript path whose body has no [error] key. *)
Example transcript_empty_object :
  fst (_request client "GET" "/youtube/transcript" []
         (serving {| status_code := 206; headers := [];
                     text := "{}"; json := Some (VDict []) |}))
  = inl (HTTPError (OfValue (VStr "No transcript available"))).
Proof. reflexivity. Qed.

(** * Further properties *)

(** ** Keys, continued *)

Lemma lower_chars_not_upper (s : string) (c : ascii) :
  In c (list_ascii_of_string (lower s)) -> Rule.is_upper c = false.
Proof.
  induction s as [|a s IH]; cbn; [intros [] |].
  intros [<- | H]; [apply lower_char_not_upper | now apply IH].
Qed.

(** X1.  A converted key holds none of the letters A-Z. *)
Theorem convert_no_upper (name : string) :
  Forall (fun c => Rule.is_upper c = false)
    (list_ascii_of_string (convert name)).
Proof.
  apply Forall_forall. intros c. rewrite convert_snake_nl.
  unfold Rule.snake_nl. apply lower_chars_not_upper.
Qed.

Lemma convert_lower (s : string) : convert (lower s) = lower s.
Proof.
  rewrite convert_snake_nl. unfold Rule.snake_nl.
  rewrite split_words_nl_lower, split_humps_lower. apply lower_idem.
Qed.

Lemma lower_convert (s : string) : lower (convert s) = convert s.
Proof.
  rewrite convert_snake_nl. unfold Rule.snake_nl. apply lower_idem.
Qed.

(** X2.  The keys that [convert] leaves as they are are exactly the keys
    that [lower] leaves as they are: a key already in lower case, with or
    without separators, is not touched, and any other key is changed. *)
Theorem convert_fixed_points (name : string) :
  convert name = name <-> lower name = name.
Proof.
  split; intros H.
  - rewrite <- H at 1. rewrite lower_convert. exact H.
  - rewrite <- H at 1. rewrite convert_lower. exact H.
Qed.

Lemma starts_upper_inv (s : string) :
  Rule.starts_upper s = true ->
  exists u r, s = String u r /\ Rule.is_upper u = true.
Proof.
  destruct s as [|u r]; cbn; [discriminate|]. intros H. now exists u, r.
Qed.

(** The two passes only put separators in front of letters A-Z. *)
Lemma separated_two_pass (s : string) :
  separated s (Rule.split_humps (Rule.split_words_nl s)).
Proof.
  induction s as [|c s IH]; [constructor|].
  rewrite split_words_nl_cons.
  destruct (negb (Rule.is_newline c) && Rule.starts_word s) eqn:E.
  - apply andb_true_iff in E. destruct E as [_ E].
    apply starts_word_upper, starts_upper_inv in E.
    destruct E as (u & r & -> & Hu).
    rewrite (split_humps_cons c), (split_humps_cons "_").
    cbn [Rule.starts_upper].
    change (Rule.is_upper "_") with false.
    change (Rule.is_lower "_" || Rule.is_digit "_") with false.
    rewrite andb_false_r. cbn [andb].
    now apply separated_insert.
  - rewrite (split_humps_cons c), starts_upper_split_words_nl.
    destruct ((Rule.is_lower c || Rule.is_digit c) && Rule.starts_upper s)
      eqn:F.
    + apply andb_true_iff in F. destruct F as [_ F].
      apply starts_upper_inv in F. destruct F as (u & r & -> & Hu).
      now apply separated_insert.
    + now apply separated_keep.
Qed.

(** X3.  [convert] only puts in underscores and then lower-cases: the
    converted key is [lower] of the key with underscores put in, each
    between a character and a letter A-Z that follows it.  Before the
    lower-casing no character of the key is dropped, replaced or moved,
    and no underscore goes in front of the key or behind it. *)
Theorem convert_inserts_only_underscores (name : string) :
  exists t, separated name t /\ convert name = lower t.
Proof.
  exists (Rule.split_humps (Rule.split_words_nl name)). split.
  - apply separated_two_pass.
  - apply convert_snake_nl.
Qed.

(** ** Dicts, continued *)

Lemma dict_get_app {V : Type} (k : string) (d1 d2 : list (string * V)) :
  dict_get k (d1 ++ d2)
  = match dict_get k d1 with
    | Some v => Some v
    | None => dict_get k d2
    end.
Proof.
  induction d1 as [|[k1 v1] d1 IH]; cbn; [reflexivity|].
  destruct (String.eqb k k1); [reflexivity | exact IH].
Qed.

Lemma dict_get_absent {V : Type} (k : string) (d : list (string * V)) :
  ~ In k (keys d) -> dict_get k d = None.
Proof.
  induction d as [|[k1 v1] d IH]; cbn; [reflexivity|]. intros H.
  destruct (String.eqb_spec k k1) as [-> | _]; [tauto|]. apply IH. tauto.
Qed.

Lemma dict_get_set {V : Type} (k k' : string) (v : V)
  (d : list (string * V)) :
  dict_get k' (dict_set k v d)
  = if String.eqb k' k then Some v else dict_get k' d.
Proof.
  induction d as [|[k1 v1] d IH]; cbn.
  - reflexivity.
  - destruct (String.eqb_spec k k1) as [-> | Hne]; cbn.
    + destruct (String.eqb k' k1); reflexivity.
    + rewrite IH. destruct (String.eqb_spec k' k) as [-> | _];
        [|reflexivity].
      destruct (String.eqb_spec k k1); [contradiction | reflexivity].
Qed.

(** Looking a key up after storing items one by one finds the last item
    stored under it. *)
Lemma dict_get_store_all {V : Type} (k : string)
  (items acc : list (string * V)) :
  dict_get k (fold_left store items acc)
  = match dict_get k (rev items) with
    | Some v => Some v
    | None => dict_get k acc
    end.
Proof.
  revert acc. induction items as [|[k1 v1] items IH]; intros acc.
  - reflexivity.
  - cbn [fold_left rev]. rewrite IH, dict_get_app. unfold store.
    cbn [fst snd]. rewrite dict_get_set. cbn [dict_get].
    destruct (dict_get k (rev items)); [reflexivity|].
    destruct (String.eqb k k1); reflexivity.
Qed.

Lemma store_all_keys {V : Type} (k : string) (items acc : list (string * V)) :
  In k (keys (fold_left store items acc))
  <-> In k (keys acc) \/ In k (keys items).
Proof.
  revert acc. induction items as [|[k1 v1] items IH]; intros acc.
  - cbn. tauto.
  - cbn [fold_left]. rewrite IH. unfold store. cbn [fst snd].
    rewrite dict_set_keys. cbn. intuition congruence.
Qed.

(** ** Normalisation of values, continued *)

(** X5.  The keys of a normalised dict are the converted keys of the
    dict: no key is lost and none appears that no key of the input
    converts to. *)
Theorem snake_items_keys (d : list (string * value)) (k : string) :
  In k (keys (snake_items d)) <-> In k (map convert (keys d)).
Proof.
  unfold snake_items, dict_of_items. rewrite store_all_keys, keys_snake.
  cbn. tauto.
Qed.

Lemma snake_items_get_last (d1 d2 : list (string * value)) (k : string)
  (v : value) :
  (forall k2, In k2 (keys d2) -> convert k2 <> convert k) ->
  dict_get (convert k) (snake_items (d1 ++ (k, v) :: d2))
  = Some (_camel_to_snake v).
Proof.
  intros Hlast. unfold snake_items, dict_of_items.
  rewrite dict_get_store_all.
  rewrite map_app, rev_app_distr. cbn [map rev fst snd].
  rewrite <- app_assoc, dict_get_app.
  rewrite dict_get_absent.
  - cbn. now rewrite String.eqb_refl.
  - unfold keys. rewrite <- map_rev, map_map. cbn [fst].
    intros Hin. apply in_map_iff in Hin. destruct Hin as ([k2 v2] & E & Hin).
    apply In_rev in Hin. apply (Hlast k2); [|exact E].
    apply in_map_iff. now exists (k2, v2).
Qed.

(** X6.  Where keys collide the last entry wins: the value found under
    [convert k] in the normalised dict is the normalised value of the
    last entry of the input whose key converts to [convert k]. *)
Theorem snake_items_last_wins (d1 d2 : list (string * value)) (k : string)
  (v : value) :
  (forall k2, In k2 (keys d2) -> convert k2 <> convert k) ->
  dict_get (convert k) (snake_items (d1 ++ (k, v) :: d2))
  = Some (_camel_to_snake v).
Proof.
  intros Hlast. unfold snake_items, dict_of_items.
  rewrite dict_get_store_all, map_app, rev_app_distr.
  cbn [map rev fst snd]. rewrite <- app_assoc, dict_get_app.
  rewrite dict_get_absent; [cbn; now rewrite String.eqb_refl|].
  unfold keys. rewrite <- map_rev, map_map. cbn [fst].
  intros ([k2 v2] & E & Hin)%in_map_iff. apply In_rev in Hin.
  apply (Hlast k2); [|exact E]. apply in_map_iff. now exists (k2, v2).
Qed.

Lemma snake_items_last_wins_witness :
  dict_get "video_id"
    (snake_items [("videoId", VInt 1); ("video_id", VInt 2); ("url", VNull)])
  = Some (VInt 2).
Proof.
  apply (snake_items_last_wins [("videoId", VInt 1)] [("url", VNull)]
           "video_id" (VInt 2)).
  intros k2 [<- | []]. discriminate.
Defined.

(** X7.  Without collisions the entries keep their order: each key is
    converted and each value normalised in place. *)
Theorem snake_items_in_order (d : list (string * value)) :
  NoDup (map convert (keys d)) ->
  snake_items d
  = map (fun kv => (convert (fst kv), _camel_to_snake (snd kv))) d.
Proof.
  intros Hnd. unfold snake_items.
  apply dict_of_items_distinct. now rewrite keys_snake.
Qed.

Lemma snake_items_in_order_witness :
  snake_items [("viewCount", VInt 5); ("videoId", VInt 1)]
  = [("view_count", VInt 5); ("video_id", VInt 1)].
Proof.
  apply (snake_items_in_order [("viewCount", VInt 5); ("videoId", VInt 1)]).
  cbn. constructor; [|constructor; [intros [] | constructor]].
  intros [H | []]. discriminate H.
Defined.

(** X8.  Every key of a normalised value, at every depth of dicts and
    lists, is a converted key: [convert] leaves it as it is. *)
Theorem camel_to_snake_keys_converted (x : value) :
  Forall (fun k => convert k = k) (all_keys (_camel_to_snake x)).
Proof.
  induction x as [| b | n | bits | s | l IH | d IH] using value_induction;
    try constructor.
  - cbn [_camel_to_snake all_keys]. apply Forall_flat_map.
    apply Forall_map. exact IH.
  - change (_camel_to_snake (VDict d)) with (VDict (snake_items d)).
    cbn [all_keys]. apply Forall_flat_map. apply Forall_forall.
    intros kv Hin. apply dict_of_items_In in Hin.
    apply in_map_iff in Hin. destruct Hin as (kv0 & <- & Hin0).
    cbn [fst snd]. constructor; [apply convert_idem|].
    rewrite Forall_forall in IH. exact (IH kv0 Hin0).
Qed.

(** ** Construction, continued *)

Lemma lstrip_blank (s : string) :
  Forall (fun c => isspace c = true) (list_ascii_of_string s) ->
  lstrip s = "".
Proof.
  induction s as [|a s IH]; cbn; [reflexivity|].
  intros H. inversion H as [|? ? Ha Hs]; subst. rewrite Ha. now apply IH.
Qed.

(** X9.  A key made of white space only is refused, however long it is:
    the length that counts is that of the stripped key. *)
Theorem init_refuses_blank_key (api_key base : string) (w : World) :
  Forall (fun c => isspace c = true) (list_ascii_of_string api_key) ->
  __init__ api_key base w
  = (inl (SupadataError "invalid-request" "Invalid or missing API key"
            "Invalid API key format"), w).
Proof.
  intros Hblank. unfold __init__, bind, strip.
  rewrite (lstrip_blank api_key Hblank). cbn [rstrip String.length].
  rewrite orb_true_r. reflexivity.
Qed.

Lemma init_refuses_blank_key_witness :
  __init__ "            " DEFAULT_BASE_URL (serving ok_video)
  = (inl (SupadataError "invalid-request" "Invalid or missing API key"
            "Invalid API key format"), serving ok_video).
Proof.
  apply (init_refuses_blank_key "            " DEFAULT_BASE_URL
           (serving ok_video)).
  repeat constructor.
Defined.

(** ** The dispatch pipeline, continued *)

Lemma silent_ret {A : Type} (a : A) : silent (ret a).
Proof. intros w. reflexivity. Qed.

Lemma silent_raise {A : Type} (e : exn) : silent (@raise A e).
Proof. intros w. reflexivity. Qed.

Lemma silent_lift {A : Type} (r : exn + A) : silent (lift r).
Proof. intros w. reflexivity. Qed.

Lemma silent_bind {A B : Type} (c : M A) (k : A -> M B) :
  silent c -> (forall a, silent (k a)) -> silent (bind c k).
Proof.
  intros Hc Hk w. unfold bind. specialize (Hc w).
  destruct (c w) as [[e | a] w']; cbn in Hc; subst w'; [reflexivity|].
  apply Hk.
Qed.

Lemma silent_try_except {A : Type} (body : M A)
  (handler : exn -> option (M A)) :
  silent body ->
  (forall e h, handler e = Some h -> silent h) ->
  silent (try_except body handler).
Proof.
  intros Hb Hh w. unfold try_except. specialize (Hb w).
  destruct (body w) as [[e | a] w']; cbn in Hb; subst w'; [|reflexivity].
  destruct (handler e) as [h|] eqn:E; [|reflexivity].
  exact (Hh e h E w).
Qed.

(** Settles [silent c] for code made of the monad's operations, branches
    included. *)
Ltac silence :=
  repeat first
    [ apply silent_ret
    | apply silent_raise
    | apply silent_lift
    | apply silent_bind; [|intros ?]
    | apply silent_try_except; [|intros [] ? [= <-]]
    | match goal with
      | |- silent (if ?b then _ else _) => destruct b
      | |- silent (match ?x with _ => _ end) => destruct x
      | |- silent (let _ := _ in _) => cbv zeta
      end ].

(** X10.  A call sends one request and no more, whatever the answer and
    whatever the outcome: the method and the keyword arguments as given,
    the URL the base URL followed by the path as it is, the headers those
    of the session.  Nothing is sent again after an error. *)
Theorem request_sends_once (self : Supadata) (method path : string)
  (kwargs : list (string * value)) (w : World) :
  sent (snd (_request self method path kwargs w))
  = sent w ++ [request_of self method path kwargs].
Proof.
  unfold _request. unfold bind at 1. unfold session_request at 1.
  fold (request_of self method path kwargs).
  destruct (server w (sent w) (request_of self method path kwargs))
    as [e | response]; [reflexivity|].
  match goal with
  | |- sent (snd (?c ?w')) = _ =>
      assert (Hs : silent c); [|now rewrite (Hs w')]
  end.
  silence.
Qed.

(** The only exception of [Error_new] is [TypeError]. *)
Lemma Error_new_raises (error_data : value) (e : exn) :
  Error_new error_data = inl e -> e = TypeError.
Proof.
  unfold Error_new. destruct error_data; try (now intros [= <-]).
  destruct (forallb _ _); [|now intros [= <-]].
  destruct (dict_get "code" d), (dict_get "title" d),
    (dict_get "description" d); now intros [= <-].
Qed.

Section Outcome.

Variables (self : Supadata) (method path : string).
Variables (kwargs : list (string * value)) (w : World).

(** X11.  A failure of the transport itself (no response at all) comes out
    of the call as it is: it is not caught and not turned into another
    error. *)
Theorem transport_failure_propagates (e : exn) :
  answer w self method path kwargs = inl e ->
  fst (_request self method path kwargs w) = inl e.
Proof.
  intros H. unfold answer in H.
  unfold _request, session_request, bind. cbv zeta. rewrite H. reflexivity.
Qed.

Variable response : Response.

(** The remote side answers the request of the call with [response]. *)
Hypothesis Hanswer : answer w self method path kwargs = inr response.

Lemma gateway_error_raises (s : Z) (t : string) :
  In s [403; 404; 429]%Z ->
  exists c ti d, _handle_gateway_error s t = inl (SupadataError c ti d).
Proof.
  intros [<- | [<- | [<- | []]]]; cbn; eauto.
Qed.

(** The gateway short-circuit raises a [SupadataError]. *)
Lemma short_circuit_raises :
  In (status_code response) [403; 404; 429]%Z ->
  contains "application/json" (content_type response) = false ->
  exists c ti d,
    fst (_request self method path kwargs w) = inl (SupadataError c ti d).
Proof.
  intros Hs Hct. dispatch Hanswer. rewrite Hct.
  destruct (gateway_error_raises _ (text response) Hs) as (c & ti & d & E).
  apply gateway_status_iff in Hs. rewrite Hs. cbn [negb]. rewrite E.
  now exists c, ti, d.
Qed.

(** Past the gateway short-circuit, the outcome of the call as a table of
    the status, the path and the body. *)
Lemma request_past_gateway :
  (In (status_code response) [403; 404; 429]%Z ->
   contains "application/json" (content_type response) = true) ->
  fst (_request self method path kwargs w)
  = if (status_code response =? 206)%Z && contains "/transcript" path then
      match json response with
      | None => inl JSONDecodeError
      | Some body =>
          match py_in "error" (_camel_to_snake body) with
          | inl e => inl e
          | inr true =>
              match py_getitem (_camel_to_snake body) "error" with
              | inl e => inl e
              | inr error => inl (HTTPError (OfValue error))
              end
          | inr false =>
              inl (HTTPError (OfValue (VStr "No transcript available")))
          end
      end
    else if ((400 <=? status_code response)
             && (status_code response <? 600))%Z then
      inl (HTTPError
             match json response with
             | Some body =>
                 match Error_new (_camel_to_snake body) with
                 | inr error => OfError error response
                 | inl _ => OfStatus response
                 end
             | None => OfStatus response
             end)
    else
      match json response with
      | Some body => inr (_camel_to_snake body)
      | None => inl JSONDecodeError
      end.
Proof.
  intros Hgw. dispatch Hanswer. fold (content_type response).
  assert (Hpre : (if existsb (Z.eqb (status_code response)) [403; 404; 429]%Z
                  then negb (contains "application/json"
                               (content_type response))
                  else false) = false).
  { destruct (existsb _ _) eqn:E; [|reflexivity].
    apply gateway_status_iff in E. now rewrite (Hgw E). }
  assert (Hskip :
    (if existsb (Z.eqb (status_code response)) [403; 404; 429]%Z
     then if negb (contains "application/json" (content_type response))
          then lift (_handle_gateway_error (status_code response)
                       (text response))
          else ret tt
     else ret tt) = ret tt).
  { destruct (existsb _ _); [|reflexivity].
    destruct (contains _ (content_type response));
      [reflexivity | discriminate Hpre]. }
  unfold lift, ret in Hskip. rewrite Hskip. clear Hskip Hpre.
  destruct ((status_code response =? 206)%Z && contains "/transcript" path).
  - unfold response_json. destruct (json response) as [body|]; [|reflexivity].
    destruct (py_in "error" (_camel_to_snake body)) as [e | []];
      [reflexivity | | reflexivity].
    destruct (py_getitem (_camel_to_snake body) "error"); reflexivity.
  - unfold raise_for_status, response_json.
    destruct ((400 <=? status_code response)
              && (status_code response <? 600))%Z; cbn [exn_response].
    + destruct (json response) as [body|]; [|reflexivity].
      destruct (Error_new (_camel_to_snake body)) as [e | error] eqn:E;
        [|reflexivity].
      apply Error_new_raises in E. subst e. reflexivity.
    + destruct (json response) as [body|]; reflexivity.
Qed.

(** X12.  A call returns a value only for a response whose status is
    outside 400..599 and, when it is 206, whose path is not a transcript
    path; the value is then the normalised JSON body.  So a 4xx or 5xx
    response never gives a return value, whatever its body. *)
Theorem request_returns_only_normalized_body (v : value) :
  fst (_request self method path kwargs w) = inr v ->
  exists body,
    json response = Some body
    /\ v = _camel_to_snake body
    /\ (status_code response < 400 \/ 600 <= status_code response)%Z
    /\ (status_code response = 206%Z -> contains "/transcript" path = false).
Proof.
  intros Hret.
  destruct (existsb (Z.eqb (status_code response)) [403; 404; 429]%Z) eqn:Hs.
  - apply gateway_status_iff in Hs.
    destruct (contains "application/json" (content_type response)) eqn:Hct.
    + rewrite request_past_gateway in Hret by (intros _; exact Hct).
      assert (H206 : (status_code response =? 206)%Z = false)
        by (apply Z.eqb_neq; cbn in Hs; lia).
      assert (H4xx : ((400 <=? status_code response)
                      && (status_code response <? 600))%Z = true)
        by (apply andb_true_iff; cbn in Hs; lia).
      rewrite H206, H4xx in Hret. discriminate Hret.
    + destruct (short_circuit_raises Hs Hct) as (c & ti & d & E).
      rewrite E in Hret. discriminate Hret.
  - assert (Hgw : In (status_code response) [403; 404; 429]%Z ->
                  contains "application/json" (content_type response) = true).
    { intros Hin. apply gateway_status_iff in Hin. congruence. }
    rewrite (request_past_gateway Hgw) in Hret.
    destruct ((status_code response =? 206)%Z && contains "/transcript" path)
      eqn:Ht.
    + destruct (json response) as [body|]; [|discriminate Hret].
      destruct (py_in "error" (_camel_to_snake body)) as [e | []];
        try discriminate Hret.
      destruct (py_getitem (_camel_to_snake body) "error");
        discriminate Hret.
    + destruct ((400 <=? status_code response)
                && (status_code response <? 600))%Z eqn:H4xx;
        [discriminate Hret|].
      destruct (json response) as [body|]; [|discriminate Hret].
      injection Hret as <-. exists body. repeat split.
      * apply andb_false_iff in H4xx. lia.
      * intros E. rewrite E in Ht. exact Ht.
Qed.

(** X13.  A [SupadataError] comes out of a call only through the gateway
    short-circuit: the status is 403, 404 or 429 and the content type
    does not include [application/json].  Every other failure is an
    [HTTPError], a decode error or a [TypeError]. *)
Theorem supadata_error_only_from_gateway (c ti d : string) :
  fst (_request self method path kwargs w) = inl (SupadataError c ti d) ->
  In (status_code response) [403; 404; 429]%Z
  /\ contains "application/json" (content_type response) = false.
Proof.
  intros Hraise.
  destruct (existsb (Z.eqb (status_code response)) [403; 404; 429]%Z
            && negb (contains "application/json" (content_type response)))
    eqn:Hsc.
  - apply andb_true_iff in Hsc. destruct Hsc as [Hs Hct].
    apply gateway_status_iff in Hs. apply negb_true_iff in Hct. now split.
  - exfalso.
    assert (Hgw : In (status_code response) [403; 404; 429]%Z ->
                  contains "application/json" (content_type response) = true).
    { intros Hin. apply gateway_status_iff in Hin. rewrite Hin in Hsc.
      now apply negb_false_iff in Hsc. }
    rewrite (request_past_gateway Hgw) in Hraise.
    destruct (_ && contains "/transcript" path).
    + destruct (json response) as [body|]; [|discriminate Hraise].
      destruct (_camel_to_snake body) as [| | | | s | l | items];
        cbn [py_in py_getitem] in Hraise; try discriminate Hraise.
      * destruct (contains "error" s); discriminate Hraise.
      * destruct (existsb _ l); discriminate Hraise.
      * destruct (existsb _ (keys items)); [|discriminate Hraise].
        destruct (dict_get "error" items); discriminate Hraise.
    + destruct (_ && _)%Z; [discriminate Hraise|].
      destruct (json response); discriminate Hraise.
Qed.

(** X14.  Any 4xx or 5xx response that the gateway short-circuit does not
    take and whose JSON body gives the fields of [Error] makes the call
    fail with an [HTTPError] that carries the structured error; the
    content type is not looked at for this. *)
Theorem structured_error_from_body (body : value) (error : Error) :
  (400 <= status_code response < 600)%Z ->
  (In (status_code response) [403; 404; 429]%Z ->
   contains "application/json" (content_type response) = true) ->
  json response = Some body ->
  Error_new (_camel_to_snake body) = inr error ->
  fst (_request self method path kwargs w)
  = inl (HTTPError (OfError error response)).
Proof.
  intros Hs Hgw Hjson Herror. rewrite (request_past_gateway Hgw).
  replace (status_code response =? 206)%Z with false
    by (symmetry; apply Z.eqb_neq; lia).
  replace ((400 <=? status_code response) && (status_code response <? 600))%Z
    with true by (symmetry; apply andb_true_iff; lia).
  cbn [andb]. now rewrite Hjson, Herror.
Qed.

(** X15.  Only the statuses 400..599 count as failures: a response with
    any other status (a 3xx that was not followed, say) is handled as a
    success and its normalised JSON body is returned, unless it is a 206
    on a transcript path. *)
Theorem non_error_status_is_success (body : value) :
  (status_code response < 400 \/ 600 <= status_code response)%Z ->
  (status_code response = 206%Z -> contains "/transcript" path = false) ->
  json response = Some body ->
  fst (_request self method path kwargs w) = inr (_camel_to_snake body).
Proof.
  intros Hs H206 Hjson.
  rewrite request_past_gateway by (cbn; intros Hin; exfalso; lia).
  assert (Hnot : (status_code response =? 206)%Z
                 && contains "/transcript" path = false).
  { destruct (Z.eqb_spec (status_code response) 206) as [E|E];
      [rewrite (H206 E)|]; reflexivity. }
  rewrite Hnot.
  replace ((400 <=? status_code response) && (status_code response <? 600))%Z
    with false by (symmetry; apply andb_false_iff; lia).
  now rewrite Hjson.
Qed.

(** X16.  A 206 on a transcript path never gives a return value: whatever
    the body is (an object, another JSON value or no JSON at all) the
    call raises. *)
Theorem transcript_partial_never_returns :
  status_code response = 206%Z ->
  contains "/transcript" path = true ->
  exists e, fst (_request self method path kwargs w) = inl e.
Proof.
  intros Hs Hpath.
  rewrite request_past_gateway by (rewrite Hs; cbn; intros Hin; exfalso; lia).
  rewrite Hs, Hpath. cbn [Z.eqb Pos.eqb andb].
  destruct (json response) as [body|]; [|eauto].
  destruct (py_in "error" (_camel_to_snake body)) as [e | []]; eauto.
  destruct (py_getitem (_camel_to_snake body) "error"); eauto.
Qed.

(** X17.  On a 206 of a transcript path the [error] field is looked up
    in the normalised body: the call fails with the normalised value of
    the last entry whose key converts to [error] (the key [error]
    itself, or [Error], say). *)
Theorem transcript_error_key_normalized (d1 d2 : list (string * value))
  (k : string) (v : value) :
  status_code response = 206%Z ->
  contains "/transcript" path = true ->
  json response = Some (VDict (d1 ++ (k, v) :: d2)) ->
  convert k = "error" ->
  (forall k2, In k2 (keys d2) -> convert k2 <> "error") ->
  fst (_request self method path kwargs w)
  = inl (HTTPError (OfValue (_camel_to_snake v))).
Proof.
  intros Hs Hpath Hjson Hk Hlast.
  rewrite request_past_gateway by (rewrite Hs; cbn; intros Hin; exfalso; lia).
  rewrite Hs, Hpath, Hjson. cbn [Z.eqb Pos.eqb andb].
  change (_camel_to_snake (VDict (d1 ++ (k, v) :: d2)))
    with (VDict (snake_items (d1 ++ (k, v) :: d2))).
  cbn [py_in py_getitem].
  assert (Hget : dict_get "error" (snake_items (d1 ++ (k, v) :: d2))
                 = Some (_camel_to_snake v)).
  { rewrite <- Hk. apply snake_items_get_last. now rewrite Hk. }
  assert (Hin : existsb (String.eqb "error")
                  (keys (snake_items (d1 ++ (k, v) :: d2))) = true).
  { apply dict_get_keys. rewrite Hget. discriminate. }
  rewrite Hin, Hget. reflexivity.
Qed.

End Outcome.

(** ** Witnesses of the further dispatch properties *)

Lemma transport_failure_propagates_witness :
  fst (_request client "GET" "/youtube/video" []
         (unreachable (ConnectionError "refused")))
  = inl (ConnectionError "refused").
Proof.
  exact (transport_failure_propagates
           client "GET" "/youtube/video" []
           (unreachable (ConnectionError "refused"))
           (ConnectionError "refused") eq_refl).
Defined.

Lemma request_returns_only_normalized_body_witness :
  exists body,
    json ok_video = Some body
    /\ _camel_to_snake video_value = _camel_to_snake body
    /\ (status_code ok_video < 400 \/ 600 <= status_code ok_video)%Z
    /\ (status_code ok_video = 206%Z
        -> contains "/transcript" "/youtube/video" = false).
Proof.
  exact (request_returns_only_normalized_body
           client "GET" "/youtube/video" [] (serving ok_video) ok_video
           eq_refl (_camel_to_snake video_value) eq_refl).
Defined.

Lemma supadata_error_only_from_gateway_witness :
  In (status_code forbidden_plain) [403; 404; 429]%Z
  /\ contains "application/json"
       (content_type forbidden_plain) = false.
Proof.
  exact (supadata_error_only_from_gateway
           client "GET" "/youtube/video" [] (serving forbidden_plain)
           forbidden_plain eq_refl
           "invalid-request" "Invalid or missing API key" "forbidden"
           eq_refl).
Defined.

Lemma structured_error_from_body_witness :
  fst (_request client "GET" "/youtube/video" [] (serving internal_flat))
  = inl (HTTPError
           (OfError {| code := VStr "internal-error";
                       title := VStr "x";
                       description := VStr "y" |}
                    internal_flat)).
Proof.
  refine (structured_error_from_body
            client "GET" "/youtube/video" [] (serving internal_flat)
            internal_flat eq_refl
            (error_value "internal-error" "x" "y") _ _ _ eq_refl eq_refl).
  - cbn. lia.
  - cbn. intros [H | [H | [H | []]]]; discriminate H.
Defined.

Lemma non_error_status_is_success_witness :
  fst (_request client "GET" "/youtube/video" [] (serving choices_video))
  = inr (VDict [("video_title", VStr "Foo");
                ("items", VList [VDict [("view_count", VInt 5)]])]).
Proof.
  refine (non_error_status_is_success
            client "GET" "/youtube/video" [] (serving choices_video)
            choices_video eq_refl video_value _ _ eq_refl).
  - cbn. lia.
  - cbn. discriminate.
Defined.

Lemma transcript_partial_never_returns_witness :
  exists e,
    fst (_request client "GET" "/youtube/transcript" []
           (serving partial_number)) = inl e.
Proof.
  exact (transcript_partial_never_returns
           client "GET" "/youtube/transcript" [] (serving partial_number)
           partial_number eq_refl eq_refl eq_refl).
Defined.

Lemma transcript_error_key_normalized_witness :
  fst (_request client "GET" "/youtube/transcript" []
         (serving partial_capital_error))
  = inl (HTTPError (OfValue (VDict [("error_code", VStr "no-captions")]))).
Proof.
  exact (transcript_error_key_normalized
           client "GET" "/youtube/transcript" []
           (serving partial_capital_error) partial_capital_error eq_refl
           [] [] "Error" (VDict [("errorCode", VStr "no-captions")])
           eq_refl eq_refl eq_refl eq_refl
           (fun k2 (H : In k2 []) => match H with end)).
Defined.
